(** * The KServe model deployer step

    A shallow embedding of
    [src/zenml/integrations/kserve/steps/kserve_deployer.py]: the pipeline
    step [kserve_model_deployer_step] and its nested helper
    [prepare_service_config].

    The step is written against three collaborators whose code lives
    elsewhere: the storage layer ([fileio], [io_utils]), the active model
    deployer ([find_model_server], [deploy_model]) and the deployment
    service object ([is_running], [start]).  They are an interface here
    (class [Collaborators]); the step is a program in a small monad that
    threads the Python object store and the collaborators' world, raises
    exceptions, and records every collaborator call it makes.

    The active model deployer ([get_active_model_deployer()]) is the
    instance of [Collaborators] at hand, the step environment is part of the
    step's inputs, and the [logger.info] calls are left out.  Paths are
    joined as [posixpath] does. *)

From Stdlib Require Import Ascii String ZArith Lia.
From stdpp Require Import base option list strings numbers.

Local Open Scope Z_scope.

(** ** [os.path.join] (posixpath), two components *)

Module PosixPath.

Definition is_sep (c : ascii) : bool := Ascii.eqb c "/"%char.

(** [b.startswith("/")] *)
Definition startswith_sep (b : string) : bool :=
  match b with
  | String c _ => is_sep c
  | EmptyString => false
  end.

(** [a.endswith("/")] *)
Fixpoint endswith_sep (a : string) : bool :=
  match a with
  | EmptyString => false
  | String c EmptyString => is_sep c
  | String _ rest => endswith_sep rest
  end.

Definition is_empty (a : string) : bool :=
  match a with EmptyString => true | String _ _ => false end.

(** [join(a, b)]: an absolute [b] discards [a]; otherwise [b] is appended,
    with a separator unless [a] is empty or already ends with one. *)
Definition join (a b : string) : string :=
  if startswith_sep b then b
  else if is_empty a || endswith_sep a then a +:+ b
  else a +:+ "/" +:+ b.

End PosixPath.

(** ** Data *)

(** [KServeDeploymentConfig]: the fields the step reads or writes, and
    [settings] for the remaining ones (replicas, resources, secret, ...),
    which the step only carries along. *)
Record KServeDeploymentConfig := mkConfig {
  pipeline_name : string;
  pipeline_run_id : string;
  pipeline_step_name : string;
  model_name : string;
  model_uri : string;
  predictor : string;
  settings : list (string * string)
}.

Definition set_pipeline_name (v : string) (c : KServeDeploymentConfig) :=
  mkConfig v (pipeline_run_id c) (pipeline_step_name c) (model_name c)
           (model_uri c) (predictor c) (settings c).

Definition set_pipeline_run_id (v : string) (c : KServeDeploymentConfig) :=
  mkConfig (pipeline_name c) v (pipeline_step_name c) (model_name c)
           (model_uri c) (predictor c) (settings c).

Definition set_pipeline_step_name (v : string) (c : KServeDeploymentConfig) :=
  mkConfig (pipeline_name c) (pipeline_run_id c) v (model_name c)
           (model_uri c) (predictor c) (settings c).

Definition set_model_uri (v : string) (c : KServeDeploymentConfig) :=
  mkConfig (pipeline_name c) (pipeline_run_id c) (pipeline_step_name c)
           (model_name c) v (predictor c) (settings c).

#[global] Instance KServeDeploymentConfig_inhabited :
  Inhabited KServeDeploymentConfig :=
  populate (mkConfig EmptyString EmptyString EmptyString EmptyString
                     EmptyString EmptyString []).

Inductive ServiceState := Absent | Starting | Running | Stopped | Failed.

(** [KServeDeploymentService]: the configuration it was deployed with, its
    endpoint and its operational state. *)
Record KServeDeploymentService := mkService {
  service_config : KServeDeploymentConfig;
  prediction_url : string;
  state : ServiceState
}.

(** Modelled from the spec: [KServeDeploymentService.is_running], a property
    of a class that is imported by the step; the spec's orchestrator tests
    [svc.state != Running]. *)
Definition is_running (service : KServeDeploymentService) : bool :=
  match state service with
  | Running => true
  | _ => false
  end.

(** A Python exception: its class and its message. *)
Inductive exn := Exn (cls : string) (msg : string).

Definition RuntimeError (msg : string) : exn := Exn "RuntimeError" msg.

Inductive outcome (A : Type) :=
| Ret (a : A)
| Raise (e : exn).
Arguments Ret {A} a.
Arguments Raise {A} e.

Definition raised {A} (r : outcome A) : option exn :=
  match r with
  | Ret _ => None
  | Raise e => Some e
  end.

(** ** Collaborators *)

(** Every operation may change the world and may raise. *)
Class Collaborators (W : Type) := {
  fileio_makedirs : string -> W -> outcome unit * W;
  fileio_exists : string -> W -> outcome bool * W;
  fileio_copy : string -> string -> W -> outcome unit * W;
  io_utils_copy_dir : string -> string -> W -> outcome unit * W;
  find_model_server :
    string -> string -> string -> W -> outcome (list KServeDeploymentService) * W;
  deploy_model :
    KServeDeploymentConfig -> bool -> Z -> W -> outcome KServeDeploymentService * W;
  (** [service.start(timeout)] updates the service object in place; the
      updated service is the value returned here. *)
  service_start :
    KServeDeploymentService -> Z -> W -> outcome KServeDeploymentService * W
}.

(** The calls the step makes on its collaborators, with their arguments. *)
Inductive call :=
| Makedirs (path : string)
| Exists (path : string)
| Copy (src dst : string)
| CopyDir (src dst : string)
| FindModelServer (pipeline step model : string)
| DeployModel (config : KServeDeploymentConfig) (replace : bool) (timeout : Z)
| Start (service : KServeDeploymentService) (timeout : Z).

(** A call and the exception it ended with, if any. *)
Record event := mkEvent {
  ev_call : call;
  ev_raised : option exn
}.

(** ** The step monad *)

(** Python objects of class [KServeDeploymentConfig] live in a store and are
    handled through references, so that a copy and an alias differ. *)
Definition ref := nat.

Record store (W : Type) := mkStore {
  objects : list KServeDeploymentConfig;
  world : W
}.
Arguments mkStore {W} objects world.
Arguments objects {W} s.
Arguments world {W} s.

(** A run returns or raises, leaves a store behind either way (effects made
    before an exception stay), and lists the collaborator calls in order. *)
Record run (W A : Type) := mkRun {
  result : outcome A;
  final : store W;
  calls : list event
}.
Arguments mkRun {W A} result final calls.
Arguments result {W A} r.
Arguments final {W A} r.
Arguments calls {W A} r.

Definition M (W A : Type) : Type := store W -> run W A.

Definition ret {W A} (a : A) : M W A := fun s => mkRun (Ret a) s [].

Definition raise {W A} (e : exn) : M W A := fun s => mkRun (Raise e) s [].

Definition bind {W A B} (m : M W A) (k : A -> M W B) : M W B :=
  fun s =>
    let r := m s in
    match result r with
    | Ret a =>
        let r' := k a (final r) in
        mkRun (result r') (final r') (calls r ++ calls r')
    | Raise e => mkRun (Raise e) (final r) (calls r)
    end.

Notation "x <- m ;; k" := (bind m (fun x => k))
  (at level 100, m at next level, right associativity).
Notation "m ;;; k" := (bind m (fun _ => k))
  (at level 100, right associativity).

(** A collaborator call: run it on the world and record it. *)
Definition invoke {W A} (c : call) (op : W -> outcome A * W) : M W A :=
  fun s =>
    let p := op (world s) in
    mkRun (fst p) (mkStore (objects s) (snd p)) [mkEvent c (raised (fst p))].

(** Attribute reads and writes on a config object. *)
Definition load {W} (r : ref) : M W KServeDeploymentConfig :=
  fun s => mkRun (Ret (objects s !!! r)) s [].

Definition setattr {W} (r : ref)
    (f : KServeDeploymentConfig -> KServeDeploymentConfig) : M W unit :=
  fun s =>
    mkRun (Ret tt) (mkStore (<[r := f (objects s !!! r)]> (objects s)) (world s)) [].

(** [obj.copy()]: a new object with the same field values. *)
Definition copy_object {W} (r : ref) : M W ref :=
  fun s =>
    mkRun (Ret (length (objects s)))
          (mkStore (objects s ++ [objects s !!! r]) (world s)) [].

(** Truth value of a list, and [l[i]]. *)
Definition truthy {A} (l : list A) : bool :=
  match l with [] => false | _ :: _ => true end.

Definition subscript {W A} (l : list A) (i : nat) : M W A :=
  match l !! i with
  | Some a => ret a
  | None => raise (Exn "IndexError" "list index out of range")
  end.

(** ** The step *)

(** What one invocation of the step is given: its arguments ([deploy_decision],
    [config], [context], [model]) and the step environment it reads. *)
Record step_inputs := mkInputs {
  deploy_decision : bool;
  config_service_config : ref;        (* config.service_config *)
  config_timeout : Z;                 (* config.timeout *)
  context_output_artifact_uri : string; (* context.get_output_artifact_uri() *)
  model_artifact_uri : string;        (* model.uri *)
  step_env_pipeline_name : string;
  step_env_pipeline_run_id : string;
  step_env_step_name : string
}.

Section Step.

Context {W : Type} `{Collaborators W}.

Definition artifact_not_found (path : string) : exn :=
  RuntimeError ("Expected sklearn model artifact was not found at " +:+ path).

(** The nested function of the step.  [model_uri] is its parameter; [config],
    [context] and [model] are the enclosing step's.  The two tests of
    [config.service_config.predictor] read one object that nothing writes in
    between; it is loaded once. *)
Definition prepare_service_config (inp : step_inputs) (model_uri : string)
  : M W ref :=
  let served_model_uri :=
    PosixPath.join (context_output_artifact_uri inp) "kserve" in
  invoke (Makedirs served_model_uri) (fileio_makedirs served_model_uri) ;;;
  cfg <- load (config_service_config inp) ;;
  served_model_uri <-
    (if String.eqb (predictor cfg) "tensorflow" then
       let dst := PosixPath.join served_model_uri "1" in
       invoke (CopyDir model_uri dst) (io_utils_copy_dir model_uri dst) ;;;
       ret served_model_uri
     else if String.eqb (predictor cfg) "sklearn" then
       let model_uri := PosixPath.join (model_artifact_uri inp) "model" in
       found <- invoke (Exists (model_artifact_uri inp))
                       (fileio_exists (model_artifact_uri inp)) ;;
       if negb found then raise (artifact_not_found model_uri)
       else
         let dst := PosixPath.join served_model_uri "model.joblib" in
         invoke (Copy model_uri dst) (fileio_copy model_uri dst) ;;;
         ret served_model_uri
     else ret model_uri) ;;
  service_config <- copy_object (config_service_config inp) ;;
  setattr service_config (set_model_uri served_model_uri) ;;;
  ret service_config.

Definition kserve_model_deployer_step (inp : step_inputs)
  : M W KServeDeploymentService :=
  let pipeline_name := step_env_pipeline_name inp in
  let pipeline_run_id := step_env_pipeline_run_id inp in
  let step_name := step_env_step_name inp in
  setattr (config_service_config inp) (set_pipeline_name pipeline_name) ;;;
  setattr (config_service_config inp) (set_pipeline_run_id pipeline_run_id) ;;;
  setattr (config_service_config inp) (set_pipeline_step_name step_name) ;;;
  cfg <- load (config_service_config inp) ;;
  existing_services <-
    invoke (FindModelServer pipeline_name step_name (model_name cfg))
           (find_model_server pipeline_name step_name (model_name cfg)) ;;
  if negb (deploy_decision inp) && truthy existing_services then
    service <- subscript existing_services 0 ;;
    service <-
      (if negb (is_running service) then
         invoke (Start service (config_timeout inp))
                (service_start service (config_timeout inp))
       else ret service) ;;
    ret service
  else
    service_config <- prepare_service_config inp (model_artifact_uri inp) ;;
    cfg <- load service_config ;;
    invoke (DeployModel cfg true (config_timeout inp))
           (deploy_model cfg true (config_timeout inp)).

End Step.

(** ** An in-memory stand-in for the collaborators

    A store of paths and a list of deployed services, newest first.  It is
    used to run the step on concrete inputs. *)

Module Fake.

Record cluster := mkCluster {
  files : list string;
  services : list KServeDeploymentService
}.

Definition has (p : string) (c : cluster) : bool := bool_decide (p ∈ files c).

Definition not_found (p : string) : exn := Exn "NotFoundError" p.

Definition makedirs (p : string) (c : cluster) : outcome unit * cluster :=
  (Ret tt, if has p c then c else mkCluster (p :: files c) (services c)).

Definition exists_ (p : string) (c : cluster) : outcome bool * cluster :=
  (Ret (has p c), c).

Definition copy (src dst : string) (c : cluster) : outcome unit * cluster :=
  if has src c then (Ret tt, mkCluster (dst :: files c) (services c))
  else (Raise (not_found src), c).

(** The paths below [src], moved below [dst]. *)
Definition rebase (src dst f : string) : list string :=
  if String.prefix (src +:+ "/") f
  then [dst +:+ String.substring (String.length src)
                                 (String.length f - String.length src) f]
  else [].

Definition copy_dir (src dst : string) (c : cluster) : outcome unit * cluster :=
  if has src c
  then (Ret tt,
        mkCluster (dst :: (files c ≫= rebase src dst) ++ files c) (services c))
  else (Raise (not_found src), c).

Definition serves (pipeline step model : string)
    (s : KServeDeploymentService) : bool :=
  String.eqb (pipeline_name (service_config s)) pipeline
  && String.eqb (pipeline_step_name (service_config s)) step
  && String.eqb (model_name (service_config s)) model.

Definition find (pipeline step model : string) (c : cluster)
  : outcome (list KServeDeploymentService) * cluster :=
  (Ret (filter (fun s => Is_true (serves pipeline step model s)) (services c)), c).

Definition deploy (cfg : KServeDeploymentConfig) (replace : bool) (timeout : Z)
    (c : cluster) : outcome KServeDeploymentService * cluster :=
  let svc := mkService cfg ("http://serving/" +:+ model_name cfg) Running in
  let others :=
    if replace
    then filter (fun s => ¬ Is_true (serves (pipeline_name cfg)
                                  (pipeline_step_name cfg) (model_name cfg) s))
                (services c)
    else services c in
  (Ret svc, mkCluster (files c) (svc :: others)).

Definition same_service (a b : KServeDeploymentService) : bool :=
  serves (pipeline_name (service_config a)) (pipeline_step_name (service_config a))
         (model_name (service_config a)) b.

Definition start (svc : KServeDeploymentService) (timeout : Z) (c : cluster)
  : outcome KServeDeploymentService * cluster :=
  let svc' := mkService (service_config svc) (prediction_url svc) Running in
  (Ret svc',
   mkCluster (files c)
             ((fun s => if same_service svc s then svc' else s) <$> services c)).

#[global] Instance collaborators : Collaborators cluster := {
  fileio_makedirs := makedirs;
  fileio_exists := exists_;
  fileio_copy := copy;
  io_utils_copy_dir := copy_dir;
  find_model_server := find;
  deploy_model := deploy;
  service_start := start
}.

End Fake.

(** ** Vocabulary of the statements *)

(** The directory the step stages into: [<output artifact uri>/kserve]. *)
Definition served_root (inp : step_inputs) : string :=
  PosixPath.join (context_output_artifact_uri inp) "kserve".

(** The served URI each predictor kind ends with. *)
Definition served_uri_for (kind : string) (inp : step_inputs)
    (model_uri : string) : string :=
  if String.eqb kind "tensorflow" then served_root inp
  else if String.eqb kind "sklearn" then served_root inp
  else model_uri.

(** The configuration object once the step has written the pipeline name, the
    run id and the step name into it. *)
Definition with_runtime_info (inp : step_inputs) (c : KServeDeploymentConfig)
  : KServeDeploymentConfig :=
  set_pipeline_step_name (step_env_step_name inp)
    (set_pipeline_run_id (step_env_pipeline_run_id inp)
       (set_pipeline_name (step_env_pipeline_name inp) c)).

(** The registry lookup the step makes from store [s]. *)
Definition lookup_call {W} (inp : step_inputs) (s : store W) : call :=
  FindModelServer (step_env_pipeline_name inp) (step_env_step_name inp)
                  (model_name (objects s !!! config_service_config inp)).

Definition registry_lookup `{Collaborators W} (inp : step_inputs) (s : store W)
  : outcome (list KServeDeploymentService) * W :=
  find_model_server (step_env_pipeline_name inp) (step_env_step_name inp)
                    (model_name (objects s !!! config_service_config inp))
                    (world s).

(** The store once the step has stamped [config.service_config]. *)
Definition stamped {W} (inp : step_inputs) (s : store W) : store W :=
  mkStore (<[config_service_config inp :=
               with_runtime_info inp (objects s !!! config_service_config inp)]>
             (objects s))
          (world s).

(** The two ways the step ends: reusing the service found first, and
    deploying the model. *)
Definition reuse_path `{Collaborators W} (inp : step_inputs)
    (service : KServeDeploymentService) : M W KServeDeploymentService :=
  service <-
    (if negb (is_running service) then
       invoke (Start service (config_timeout inp))
              (service_start service (config_timeout inp))
     else ret service) ;;
  ret service.

Definition deploy_path `{Collaborators W} (inp : step_inputs)
  : M W KServeDeploymentService :=
  service_config <- prepare_service_config inp (model_artifact_uri inp) ;;
  cfg <- load service_config ;;
  invoke (DeployModel cfg true (config_timeout inp))
         (deploy_model cfg true (config_timeout inp)).

(** A run that comes after a call that returned. *)
Definition after {W A} (c : call) (r : run W A) : run W A :=
  mkRun (result r) (final r) (mkEvent c None :: calls r).

Definition with_decision (d : bool) (inp : step_inputs) : step_inputs :=
  mkInputs d (config_service_config inp) (config_timeout inp)
           (context_output_artifact_uri inp) (model_artifact_uri inp)
           (step_env_pipeline_name inp) (step_env_pipeline_run_id inp)
           (step_env_step_name inp).

(** Modelled from the spec: the contract of the backend's [start], which is
    code outside the step; by the spec a start either brings the service to
    [Running] within the timeout or fails with [StartTimeout]. *)
Definition start_reaches_running (W : Type) `{Collaborators W} : Prop :=
  forall service timeout w service' w',
    service_start service timeout w = (Ret service', w') ->
    state service' = Running.

(** The backend calls that create, replace or start a service. *)
Definition is_mutation (c : call) : bool :=
  match c with
  | DeployModel _ _ _ | Start _ _ => true
  | _ => false
  end.

(** The [replace] flags of the [deploy_model] calls, in order. *)
Definition replace_flags (l : list event) : list bool :=
  omap (fun ev => match ev_call ev with
                  | DeployModel _ replace _ => Some replace
                  | _ => None
                  end) l.

(** The identity a request addresses: pipeline, step and model name. *)
Definition identity {W} (inp : step_inputs) (s : store W)
  : string * string * string :=
  (step_env_pipeline_name inp, step_env_step_name inp,
   model_name (objects s !!! config_service_config inp)).

(** A call that returned. *)
Definition quiet (ev : event) : Prop := ev_raised ev = None.

(** A run that hides no failure: if it returns, every call returned; if it
    raises [e], either its last call raised [e] and the earlier ones
    returned, or every call returned and [e] is one of the exceptions [own]
    the code raises itself. *)
Definition faithful {W A} (own : exn -> Prop) (r : run W A) : Prop :=
  match result r with
  | Ret _ => Forall quiet (calls r)
  | Raise e =>
      (exists before c,
          calls r = before ++ [mkEvent c (Some e)] /\ Forall quiet before)
      \/ (own e /\ Forall quiet (calls r))
  end.

(** The one exception the step raises itself. *)
Definition own_failure (inp : step_inputs) (e : exn) : Prop :=
  e = artifact_not_found (PosixPath.join (model_artifact_uri inp) "model").

Definition is_copy (c : call) : bool :=
  match c with
  | Copy _ _ | CopyDir _ _ => true
  | _ => false
  end.

(** ** Concrete inputs

    The scenario of the spec: identity (p1, s1, m1), a scikit-learn model
    stored below [/store/m], staging below [/out/step]. *)

Module Scenario.

(** A field the caller left empty. *)
Definition unset : string := EmptyString.

Definition config : KServeDeploymentConfig :=
  mkConfig unset unset unset "m1" unset "sklearn" [("replicas", "1")].

Definition request (decision : bool) (run_id : string) : step_inputs :=
  mkInputs decision 0%nat 300 "/out/step" "/store/m" "p1" run_id "s1".

Definition deployed (st : ServiceState) : KServeDeploymentService :=
  mkService (mkConfig "p1" "r1" "s1" "m1" "/out/step/kserve" "sklearn"
                      [("replicas", "1")])
            "http://serving/m1" st.

(** Nothing deployed yet, the model file in place. *)
Definition fresh : store Fake.cluster :=
  mkStore [config] (Fake.mkCluster ["/store/m"; "/store/m/model"] []).

(** A service for the identity exists, in state [st]. *)
Definition serving (st : ServiceState) : store Fake.cluster :=
  mkStore [config]
          (Fake.mkCluster ["/store/m"; "/store/m/model"] [deployed st]).

(** The artifact directory exists but holds no [model] file. *)
Definition no_model_file : store Fake.cluster :=
  mkStore [config] (Fake.mkCluster ["/store/m"] []).

(** The artifact directory does not exist. *)
Definition no_artifact : store Fake.cluster :=
  mkStore [config] (Fake.mkCluster [] []).

(** Another identity (p2, s2, m2) with the same model artifact. *)
Definition other_config : KServeDeploymentConfig :=
  mkConfig unset unset unset "m2" unset "sklearn" [].

Definition other_request : step_inputs :=
  mkInputs true 0%nat 300 "/out/other" "/store/m" "p2" "r9" "s2".

Definition other_no_artifact : store Fake.cluster :=
  mkStore [other_config] (Fake.mkCluster [] []).

(** A TensorFlow model and a model for another server. *)
Definition tensorflow_store : store Fake.cluster :=
  mkStore [mkConfig unset unset unset "m1" unset "tensorflow" []]
          (Fake.mkCluster ["/store/deep/er/m"; "/store/deep/er/m/saved_model.pb"] []).

Definition xgboost_store : store Fake.cluster :=
  mkStore [mkConfig unset unset unset "m1" unset "xgboost" []]
          (Fake.mkCluster ["/store/m"] []).

End Scenario.

(** * Properties *)

(** ** Paths *)

Module PosixPathFacts.
Import PosixPath.

Lemma endswith_sep_app_nonempty a c b :
  endswith_sep (a +:+ String c b) = endswith_sep (String c b).
Proof.
  induction a as [|x a IH]; [reflexivity|].
  change (String x a +:+ String c b) with (String x (a +:+ String c b)).
  cbn [endswith_sep]. rewrite IH.
  destruct (a +:+ String c b) eqn:E; [|reflexivity].
  destruct a; discriminate.
Qed.

Lemma append_cons x (a b : string) : String x a +:+ b = String x (a +:+ b).
Proof. reflexivity. Qed.

Lemma append_assoc (a b c : string) : (a +:+ b) +:+ c = a +:+ b +:+ c.
Proof.
  induction a as [|x a IH]; [reflexivity|].
  rewrite !append_cons. now f_equal.
Qed.

Lemma is_empty_app_nonempty a c b : is_empty (a +:+ String c b) = false.
Proof. destruct a; reflexivity. Qed.

(** A relative component that does not end with a separator gives a path
    that is not empty and does not end with one. *)
Lemma join_relative_shape a c b :
  is_sep c = false ->
  exists p, join a (String c b) = p +:+ String c b.
Proof.
  intros Hc. unfold join. cbn [startswith_sep]. rewrite Hc.
  destruct (is_empty a || endswith_sep a).
  - exists a. reflexivity.
  - exists (a +:+ "/"). rewrite append_assoc. reflexivity.
Qed.

(** Below a root that is itself [join a d] for a relative [d] not ending
    in a separator, a relative child is appended after exactly one
    separator. *)
Lemma join_child a c b child :
  is_sep c = false ->
  endswith_sep (String c b) = false ->
  startswith_sep child = false ->
  join (join a (String c b)) child = join a (String c b) +:+ "/" +:+ child.
Proof.
  intros Hc He Hs.
  destruct (join_relative_shape a c b Hc) as [p ->].
  unfold join at 1. rewrite Hs.
  rewrite is_empty_app_nonempty, endswith_sep_app_nonempty, He.
  reflexivity.
Qed.

Lemma served_root_slot out :
  join (join out "kserve") "1" = join out "kserve" +:+ "/1".
Proof. apply join_child; reflexivity. Qed.

Lemma served_root_joblib out :
  join (join out "kserve") "model.joblib" = join out "kserve" +:+ "/model.joblib".
Proof. apply join_child; reflexivity. Qed.

End PosixPathFacts.

(** ** The object store *)

Section StoreFacts.

Context {A : Type} `{!Inhabited A}.

Lemma snoc_lookup_total_last (l : list A) (x : A) :
  (l ++ [x]) !!! length l = x.
Proof. apply list_lookup_total_middle. reflexivity. Qed.

Lemma snoc_insert_last (l : list A) (x y : A) :
  <[length l := y]> (l ++ [x]) = l ++ [y].
Proof.
  rewrite insert_app_r_alt by reflexivity.
  rewrite Nat.sub_diag. reflexivity.
Qed.

Lemma snoc_lookup_old (l : list A) (x : A) (i : nat) :
  (i < length l)%nat -> (l ++ [x]) !! i = l !! i.
Proof. apply lookup_app_l. Qed.

End StoreFacts.

(** ** Laws of the step monad *)

Section MonadFacts.

Context {W : Type}.

Lemma bind_pure {A B} (m : M W A) (k : A -> M W B) s a s' :
  m s = mkRun (Ret a) s' [] -> bind m k s = k a s'.
Proof. unfold bind. intros ->. cbn. now destruct (k a s'). Qed.

Lemma bind_ret {A B} (a : A) (k : A -> M W B) s : bind (ret a) k s = k a s.
Proof. now apply bind_pure. Qed.

Lemma bind_load {B} r (k : _ -> M W B) s :
  bind (load r) k s = k (objects s !!! r) s.
Proof. now apply bind_pure. Qed.

Lemma bind_setattr {B} r f (k : unit -> M W B) s :
  bind (setattr r f) k s
  = k tt (mkStore (<[r := f (objects s !!! r)]> (objects s)) (world s)).
Proof. now apply bind_pure. Qed.

Lemma bind_raise {A B} e (k : A -> M W B) s :
  bind (raise e) k s = mkRun (Raise e) s [].
Proof. reflexivity. Qed.

Lemma bind_copy_object {B} r (k : ref -> M W B) s :
  bind (copy_object r) k s
  = k (length (objects s))
      (mkStore (objects s ++ [objects s !!! r]) (world s)).
Proof. now apply bind_pure. Qed.

Lemma bind_invoke_ret {A B} c (op : W -> outcome A * W) (k : A -> M W B) s a w :
  op (world s) = (Ret a, w) ->
  bind (invoke c op) k s = after c (k a (mkStore (objects s) w)).
Proof. unfold bind, invoke. now intros ->. Qed.

Lemma bind_invoke_raise {A B} c (op : W -> outcome A * W) (k : A -> M W B) s e w :
  op (world s) = (Raise e, w) ->
  bind (invoke c op) k s
  = mkRun (Raise e) (mkStore (objects s) w) [mkEvent c (Some e)].
Proof. unfold bind, invoke. now intros ->. Qed.

Lemma bind_run_ret {A B} (m : M W A) (k : A -> M W B) s a :
  result (m s) = Ret a ->
  bind m k s
  = mkRun (result (k a (final (m s)))) (final (k a (final (m s))))
          (calls (m s) ++ calls (k a (final (m s)))).
Proof. unfold bind. now intros ->. Qed.

Lemma bind_run_raise {A B} (m : M W A) (k : A -> M W B) s e :
  result (m s) = Raise e ->
  bind m k s = mkRun (Raise e) (final (m s)) (calls (m s)).
Proof. unfold bind. now intros ->. Qed.

Lemma bind_ret_r {A} (m : M W A) s : bind m (fun a => ret a) s = m s.
Proof.
  unfold bind, ret. destruct (m s) as [[a|e] s' cs]; cbn; [|reflexivity].
  now rewrite app_nil_r.
Qed.

Lemma bind_assoc {A B C} (m : M W A) (f : A -> M W B) (k : B -> M W C) s :
  bind (bind m f) k s = bind m (fun a => bind (f a) k) s.
Proof.
  unfold bind. destruct (m s) as [[a|e] s1 c1]; cbn; [|reflexivity].
  destruct (f a s1) as [[b|e] s2 c2]; cbn; [|reflexivity].
  now rewrite app_assoc.
Qed.

End MonadFacts.

(** ** The step up to its registry lookup *)

Section StampFacts.

Implicit Types (l : list KServeDeploymentConfig) (r : ref).

(** The three assignments amount to one update of the object. *)
Lemma stamp_once inp l r :
  let l1 := <[r := set_pipeline_name (step_env_pipeline_name inp) (l !!! r)]> l in
  let l2 := <[r := set_pipeline_run_id (step_env_pipeline_run_id inp) (l1 !!! r)]> l1 in
  <[r := set_pipeline_step_name (step_env_step_name inp) (l2 !!! r)]> l2
  = <[r := with_runtime_info inp (l !!! r)]> l.
Proof.
  intros l1 l2. subst l1 l2.
  destruct (decide (r < length l)%nat) as [Hlt|Hge].
  - rewrite !list_lookup_total_insert_eq by (rewrite ?length_insert; exact Hlt).
    rewrite !list_insert_insert_eq. reflexivity.
  - rewrite !(list_insert_ge l) by lia. reflexivity.
Qed.

Lemma stamped_model_name inp l r :
  model_name (<[r := with_runtime_info inp (l !!! r)]> l !!! r)
  = model_name (l !!! r).
Proof.
  destruct (decide (r < length l)%nat) as [Hlt|Hge].
  - now rewrite list_lookup_total_insert_eq.
  - now rewrite list_insert_ge by lia.
Qed.

End StampFacts.

(** ** Running a program step by step *)

Ltac run_pure :=
  repeat first
    [ rewrite bind_assoc | rewrite bind_load | rewrite bind_setattr
    | rewrite bind_ret | rewrite bind_raise | rewrite bind_copy_object
    | progress cbn [objects world] ].

Ltac run_invoke :=
  match goal with
  | |- context [bind (invoke ?c ?op) ?k ?s] =>
      let E := fresh "E" in
      destruct (op (world s)) as [[?|?] ?] eqn:E;
      [ rewrite (bind_invoke_ret c op k s _ _ E)
      | rewrite (bind_invoke_raise c op k s _ _ E) ]
  | |- context [bind (if ?b then _ else _) _ _] => destruct b eqn:?
  end.

Ltac run_cases := run_pure; repeat (run_invoke; run_pure).

Ltac run_done :=
  unfold after, ret, raise; cbn [result final calls objects world].

(** ** [prepare_service_config] *)

Section PrepareFacts.

Context {W : Type} `{Collaborators W}.

Implicit Types (inp : step_inputs) (s : store W).

(** The store after [copy()] followed by the assignment to [model_uri]. *)
Lemma copy_then_set (l : list KServeDeploymentConfig) (r : ref) (v : string) :
  <[length l := set_model_uri v ((l ++ [l !!! r]) !!! length l)]> (l ++ [l !!! r])
  = l ++ [set_model_uri v (l !!! r)].
Proof. now rewrite snoc_lookup_total_last, snoc_insert_last. Qed.

(** C6: with predictor "tensorflow", whatever the model URI is, the helper
    copies it with [copy_dir] into [<served root>/1]; when the storage
    calls return, these are exactly the calls made, and the returned
    configuration's [model_uri] is the served root. *)
Theorem tensorflow_stages_into_slot_1 inp (uri : string) s w w' :
  predictor (objects s !!! config_service_config inp) = "tensorflow" ->
  fileio_makedirs (served_root inp) (world s) = (Ret tt, w) ->
  io_utils_copy_dir uri (served_root inp +:+ "/1") w = (Ret tt, w') ->
  let r := prepare_service_config inp uri s in
  calls r = [mkEvent (Makedirs (served_root inp)) None;
             mkEvent (CopyDir uri (served_root inp +:+ "/1")) None]
  /\ exists service_config : ref,
       result r = Ret service_config
       /\ model_uri (objects (final r) !!! service_config) = served_root inp.
Proof.
  intros Hp Hmk Hcp r. subst r.
  unfold prepare_service_config. fold (served_root inp).
  rewrite (bind_invoke_ret _ _ _ _ _ _ Hmk). run_pure.
  rewrite Hp. change (String.eqb "tensorflow" "tensorflow") with true. cbn iota.
  unfold served_root in *. rewrite PosixPathFacts.served_root_slot.
  run_pure. erewrite (bind_invoke_ret (CopyDir _ _)) by exact Hcp. run_pure.
  rewrite copy_then_set. run_done.
  split; [reflexivity|].
  eexists; split; [reflexivity|].
  now rewrite snoc_lookup_total_last.
Qed.

(** C7: with a predictor that is neither "tensorflow" nor "sklearn", the
    helper makes no copy (its only storage call creates the served
    directory) and the configuration it returns has the model URI it was
    given, verbatim. *)
Theorem other_predictors_serve_in_place inp (uri : string) s :
  predictor (objects s !!! config_service_config inp) <> "tensorflow" ->
  predictor (objects s !!! config_service_config inp) <> "sklearn" ->
  let r := prepare_service_config inp uri s in
  calls r = [mkEvent (Makedirs (served_root inp))
               (raised (fst (fileio_makedirs (served_root inp) (world s))))]
  /\ Forall (fun ev => is_copy (ev_call ev) = false) (calls r)
  /\ (forall service_config : ref,
        result r = Ret service_config ->
        model_uri (objects (final r) !!! service_config) = uri)
  /\ (fst (fileio_makedirs (served_root inp) (world s)) = Ret tt ->
      exists service_config : ref, result r = Ret service_config).
Proof.
  intros Htf Hsk r. subst r.
  apply String.eqb_neq in Htf, Hsk.
  unfold prepare_service_config. fold (served_root inp).
  run_invoke; run_pure.
  - rewrite Htf, Hsk. run_pure. rewrite copy_then_set. run_done.
    repeat split.
    + repeat constructor.
    + intros ref [= <-]. now rewrite snoc_lookup_total_last.
    + eauto.
  - run_done. repeat split.
    + repeat constructor.
    + discriminate.
    + discriminate.
Qed.

(** C10: the helper leaves every object that existed before the call as it
    was, [config.service_config] among them; the configuration it returns
    is a new object that has the served URI as [model_uri] and agrees with
    [config.service_config] on every other field. *)
Theorem prepare_service_config_copies inp (uri : string) s :
  (config_service_config inp < length (objects s))%nat ->
  let r := prepare_service_config inp uri s in
  let original := objects s !!! config_service_config inp in
  (forall i : ref, (i < length (objects s))%nat ->
      objects (final r) !! i = objects s !! i)
  /\ forall service_config : ref,
       result r = Ret service_config ->
       service_config <> config_service_config inp
       /\ exists copy,
            objects (final r) !! service_config = Some copy
            /\ model_uri copy = served_uri_for (predictor original) inp uri
            /\ pipeline_name copy = pipeline_name original
            /\ pipeline_run_id copy = pipeline_run_id original
            /\ pipeline_step_name copy = pipeline_step_name original
            /\ model_name copy = model_name original
            /\ predictor copy = predictor original
            /\ settings copy = settings original.
Proof.
  intros Hvalid r original. subst r original.
  unfold served_uri_for, prepare_service_config. fold (served_root inp).
  run_cases; rewrite ?copy_then_set; run_done;
  (split;
   [ intros i Hi; rewrite ?snoc_lookup_old by exact Hi; reflexivity
   | intros ref Hret;
     first
       [ discriminate Hret
       | injection Hret as <-; split; [lia|];
         eexists; split; [apply list_lookup_middle; reflexivity|];
         repeat split ] ]).
Qed.

End PrepareFacts.

(** ** The step up to its branch *)

Section LookupFacts.

Context {W : Type} `{Collaborators W}.

Implicit Types (inp : step_inputs) (s : store W).

Ltac to_lookup :=
  unfold kserve_model_deployer_step, registry_lookup;
  rewrite !bind_setattr; cbn [objects world];
  rewrite stamp_once, bind_load; cbn [objects world];
  rewrite stamped_model_name.

Lemma step_lookup_raises inp s e w :
  registry_lookup inp s = (Raise e, w) ->
  kserve_model_deployer_step inp s
  = mkRun (Raise e) (mkStore (objects (stamped inp s)) w)
          [mkEvent (lookup_call inp s) (Some e)].
Proof.
  intros Hl. revert Hl. to_lookup. intros Hl.
  now erewrite bind_invoke_raise by exact Hl.
Qed.

Lemma step_reuses inp s service others w :
  registry_lookup inp s = (Ret (service :: others), w) ->
  deploy_decision inp = false ->
  kserve_model_deployer_step inp s
  = after (lookup_call inp s)
          (reuse_path inp service (mkStore (objects (stamped inp s)) w)).
Proof.
  intros Hl Hd. revert Hl. to_lookup. intros Hl.
  erewrite bind_invoke_ret by exact Hl.
  rewrite Hd. cbn [negb andb truthy]. unfold subscript.
  change ((service :: others) !! 0%nat) with (Some service). cbv iota.
  now rewrite bind_ret.
Qed.

Lemma step_deploys inp s existing w :
  registry_lookup inp s = (Ret existing, w) ->
  deploy_decision inp = true \/ existing = [] ->
  kserve_model_deployer_step inp s
  = after (lookup_call inp s)
          (deploy_path inp (mkStore (objects (stamped inp s)) w)).
Proof.
  intros Hl Hd. revert Hl. to_lookup. intros Hl.
  erewrite bind_invoke_ret by exact Hl.
  replace (negb (deploy_decision inp) && truthy existing) with false;
    [reflexivity|].
  destruct Hd as [-> | ->]; [reflexivity|].
  now destruct (deploy_decision inp).
Qed.

End LookupFacts.

(** ** The decision *)

Section DecisionFacts.

Context {W : Type} `{Collaborators W}.

Implicit Types (inp : step_inputs) (s : store W).

(** C3: with a negative decision and a running service found first for the
    identity, the step returns that very service, its only collaborator
    call is the registry lookup (no deploy, no start), and the world is as
    the lookup left it. *)
Theorem negative_decision_reuses_running_service inp s service others w :
  deploy_decision inp = false ->
  registry_lookup inp s = (Ret (service :: others), w) ->
  is_running service = true ->
  let r := kserve_model_deployer_step inp s in
  result r = Ret service
  /\ calls r = [mkEvent (lookup_call inp s) None]
  /\ Forall (fun ev => is_mutation (ev_call ev) = false) (calls r)
  /\ world (final r) = w.
Proof.
  intros Hd Hl Hrun r. subst r.
  rewrite (step_reuses _ _ _ _ _ Hl Hd).
  unfold reuse_path. rewrite Hrun. cbn [negb]. rewrite bind_ret_r.
  unfold after, ret. cbn [result final calls world].
  repeat split. repeat constructor.
Qed.

(** The start call is made exactly once whatever it does, and its failure
    is the step's failure. *)
Lemma negative_decision_start_call inp s service others w :
  deploy_decision inp = false ->
  registry_lookup inp s = (Ret (service :: others), w) ->
  is_running service = false ->
  let r := kserve_model_deployer_step inp s in
  let started := service_start service (config_timeout inp) w in
  result r = fst started
  /\ calls r = [mkEvent (lookup_call inp s) None;
                mkEvent (Start service (config_timeout inp)) (raised (fst started))]
  /\ world (final r) = snd started.
Proof.
  intros Hd Hl Hrun r started. subst r started.
  rewrite (step_reuses _ _ _ _ _ Hl Hd).
  unfold reuse_path. rewrite Hrun. cbn [negb]. rewrite bind_ret_r.
  unfold after, invoke. cbn [result final calls world]. auto.
Qed.

(** C4: with a negative decision and a service found first for the identity
    that is not running, the step calls [start] on that service exactly
    once, with the configured timeout, and makes no other backend call; when
    the start returns, the step returns the started service, whose state is
    [Running]. *)
Theorem negative_decision_starts_stopped_service
    inp s service others w service' w' :
  start_reaches_running W ->
  deploy_decision inp = false ->
  registry_lookup inp s = (Ret (service :: others), w) ->
  is_running service = false ->
  service_start service (config_timeout inp) w = (Ret service', w') ->
  let r := kserve_model_deployer_step inp s in
  calls r = [mkEvent (lookup_call inp s) None;
             mkEvent (Start service (config_timeout inp)) None]
  /\ length (filter (fun ev => is_mutation (ev_call ev) = true) (calls r)) = 1%nat
  /\ result r = Ret service'
  /\ state service' = Running.
Proof.
  intros Hcontract Hd Hl Hrun Hstart r. subst r.
  destruct (negative_decision_start_call _ _ _ _ _ Hd Hl Hrun) as (Hres & Hcalls & _).
  rewrite Hstart in Hres, Hcalls. cbn [fst raised] in Hres, Hcalls.
  rewrite Hcalls, Hres. repeat split.
  eapply Hcontract, Hstart.
Qed.

(** C5: when the lookup finds no service, the run of the step with a
    negative decision is the run with a positive decision: same result,
    same final store and world, same collaborator calls; both go on to
    deploy the model. *)
Theorem negative_decision_without_service_deploys inp s w :
  registry_lookup inp s = (Ret [], w) ->
  kserve_model_deployer_step (with_decision false inp) s
  = kserve_model_deployer_step (with_decision true inp) s
  /\ kserve_model_deployer_step (with_decision false inp) s
     = after (lookup_call inp s)
             (deploy_path inp (mkStore (objects (stamped inp s)) w)).
Proof.
  intros Hl.
  rewrite (step_deploys (with_decision false inp) s [] w Hl (or_intror eq_refl)).
  rewrite (step_deploys (with_decision true inp) s [] w Hl (or_introl eq_refl)).
  split; reflexivity.
Qed.

End DecisionFacts.


(** ** The deploy call *)

Section DeployFacts.

Context {W : Type} `{Collaborators W}.

Implicit Types (inp : step_inputs) (s : store W).

Lemma prepare_makes_no_backend_call inp (uri : string) s :
  replace_flags (calls (prepare_service_config inp uri s)) = [].
Proof. unfold prepare_service_config. run_cases; run_done; reflexivity. Qed.

Lemma deploy_path_flags inp s :
  replace_flags (calls (deploy_path inp s)) = []
  \/ replace_flags (calls (deploy_path inp s)) = [true].
Proof.
  unfold deploy_path.
  pose proof (prepare_makes_no_backend_call inp (model_artifact_uri inp) s) as Hp.
  destruct (result (prepare_service_config inp (model_artifact_uri inp) s))
    as [service_config|e] eqn:Hret.
  - right. rewrite (bind_run_ret _ _ _ _ Hret). cbn [calls].
    unfold replace_flags in *. rewrite omap_app, Hp.
    rewrite bind_load. reflexivity.
  - left. now rewrite (bind_run_raise _ _ _ _ Hret).
Qed.

(** When staging returns, the deploy call is made, once, with
    [replace = true]. *)
Lemma deploy_path_replaces inp s service_config :
  result (prepare_service_config inp (model_artifact_uri inp) s)
  = Ret service_config ->
  replace_flags (calls (deploy_path inp s)) = [true].
Proof.
  intros Hret. unfold deploy_path.
  pose proof (prepare_makes_no_backend_call inp (model_artifact_uri inp) s) as Hp.
  rewrite (bind_run_ret _ _ _ _ Hret). cbn [calls].
  unfold replace_flags in *. rewrite omap_app, Hp, bind_load. reflexivity.
Qed.

Lemma flags_after_lookup {A} inp s (r : run W A) :
  replace_flags (calls (after (lookup_call inp s) r)) = replace_flags (calls r).
Proof. reflexivity. Qed.

(** C1, as the code has it: every [deploy_model] call of the step carries
    [replace = true]; and on either deploy branch (nothing found, or a
    positive decision), once staging has returned, the step makes exactly one
    [deploy_model] call, with [replace = true]. *)
Theorem deploy_always_replaces inp s :
  Forall (fun replace => replace = true)
         (replace_flags (calls (kserve_model_deployer_step inp s)))
  /\ (forall existing w service_config,
        registry_lookup inp s = (Ret existing, w) ->
        deploy_decision inp = true \/ existing = [] ->
        result (prepare_service_config inp (model_artifact_uri inp)
                  (mkStore (objects (stamped inp s)) w)) = Ret service_config ->
        replace_flags (calls (kserve_model_deployer_step inp s)) = [true]).
Proof.
  split.
  - destruct (registry_lookup inp s) as [[existing|e] w] eqn:Hl.
    + destruct (deploy_decision inp) eqn:Hd; [|destruct existing as [|service others]].
      * rewrite (step_deploys _ _ _ _ Hl (or_introl Hd)), flags_after_lookup.
        destruct (deploy_path_flags inp (mkStore (objects (stamped inp s)) w))
          as [-> | ->]; repeat constructor.
      * rewrite (step_deploys _ _ _ _ Hl (or_intror eq_refl)), flags_after_lookup.
        destruct (deploy_path_flags inp (mkStore (objects (stamped inp s)) w))
          as [-> | ->]; repeat constructor.
      * rewrite (step_reuses _ _ _ _ _ Hl Hd), flags_after_lookup.
        unfold reuse_path. rewrite bind_ret_r.
        destruct (is_running service); cbn [negb]; [constructor|].
        unfold invoke. cbn [calls]. constructor.
    + rewrite (step_lookup_raises _ _ _ _ Hl). constructor.
  - intros existing w service_config Hl Hbranch Hstaged.
    rewrite (step_deploys _ _ _ _ Hl Hbranch), flags_after_lookup.
    exact (deploy_path_replaces _ _ _ Hstaged).
Qed.

End DeployFacts.

(** ** Failures *)

Section FailureFacts.

Context {W : Type} (own : exn -> Prop).

Lemma faithful_pure {A} (m : M W A) s a s' :
  m s = mkRun (Ret a) s' [] -> faithful own (m s).
Proof. intros ->. constructor. Qed.

Lemma faithful_raise {A} e s : own e -> faithful own (@raise W A e s).
Proof. intros He. right. split; [exact He | constructor]. Qed.

Lemma faithful_invoke {A} c (op : W -> outcome A * W) s :
  faithful own (invoke c op s).
Proof.
  unfold invoke, faithful. destruct (op (world s)) as [[a|e] w]; cbn.
  - repeat constructor.
  - left. exists [], c. split; [reflexivity | constructor].
Qed.

Lemma faithful_bind {A B} (m : M W A) (k : A -> M W B) s :
  faithful own (m s) ->
  (forall a, result (m s) = Ret a -> faithful own (k a (final (m s)))) ->
  faithful own (bind m k s).
Proof.
  unfold faithful, bind. intros Hm Hk.
  destruct (result (m s)) as [a|e] eqn:Hres; cbn [result calls]; [|exact Hm].
  specialize (Hk a eq_refl).
  destruct (result (k a (final (m s)))) as [b|e].
  - apply Forall_app. split; assumption.
  - destruct Hk as [(before & c & -> & Hq) | [He Hq]].
    + left. exists (calls (m s) ++ before), c.
      split; [now rewrite app_assoc | now apply Forall_app].
    + right. split; [exact He | now apply Forall_app].
Qed.

End FailureFacts.

Section StepFailures.

Context {W : Type} `{Collaborators W}.

Implicit Types (inp : step_inputs) (s : store W).

Ltac faithful_step :=
  repeat match goal with
  | |- faithful _ (bind _ _ _) => apply faithful_bind; [|intros ? _]
  | |- faithful _ (invoke _ _ _) => apply faithful_invoke
  | |- faithful _ (raise _ _) => apply faithful_raise; reflexivity
  | |- faithful _ (ret _ _) => eapply faithful_pure; reflexivity
  | |- faithful _ (load _ _) => eapply faithful_pure; reflexivity
  | |- faithful _ (setattr _ _ _) => eapply faithful_pure; reflexivity
  | |- faithful _ (copy_object _ _) => eapply faithful_pure; reflexivity
  | |- faithful _ ((if ?b then _ else _) _) => destruct b
  end.

Lemma prepare_service_config_faithful inp s :
  faithful (own_failure inp)
           (prepare_service_config inp (model_artifact_uri inp) s).
Proof. unfold prepare_service_config. faithful_step. Qed.

Lemma deploy_path_faithful inp s :
  faithful (own_failure inp) (deploy_path inp s).
Proof.
  unfold deploy_path.
  apply faithful_bind; [apply prepare_service_config_faithful|intros ? _].
  faithful_step.
Qed.

Lemma faithful_after {A} own c (r : run W A) :
  faithful own r -> faithful own (after c r).
Proof.
  unfold faithful, after. cbn [result calls].
  destruct (result r) as [a|e].
  - intros Hq. constructor; [reflexivity | exact Hq].
  - intros [(before & c' & -> & Hq) | [He Hq]].
    + left. exists (mkEvent c None :: before), c'.
      split; [reflexivity | constructor; [reflexivity | exact Hq]].
    + right. split; [exact He | constructor; [reflexivity | exact Hq]].
Qed.

(** C8, as the code has it: the step hides no failure.  If it returns,
    every collaborator call returned.  If it raises [e], then either [e]
    is what its last collaborator call raised (and every earlier call
    returned), or every call returned and [e] is the [RuntimeError] about
    the sklearn model file, whose message names that path only. *)
Theorem failures_propagate inp s :
  faithful (own_failure inp) (kserve_model_deployer_step inp s).
Proof.
  destruct (registry_lookup inp s) as [[existing|e] w] eqn:Hl.
  - destruct (deploy_decision inp) eqn:Hd; [|destruct existing as [|service others]].
    + rewrite (step_deploys _ _ _ _ Hl (or_introl Hd)).
      apply faithful_after, deploy_path_faithful.
    + rewrite (step_deploys _ _ _ _ Hl (or_intror eq_refl)).
      apply faithful_after, deploy_path_faithful.
    + rewrite (step_reuses _ _ _ _ _ Hl Hd).
      apply faithful_after. unfold reuse_path. faithful_step.
  - rewrite (step_lookup_raises _ _ _ _ Hl).
    left. exists [], (lookup_call inp s). split; [reflexivity | constructor].
Qed.

(** The sklearn branch tests the artifact directory, not the model file:
    once the directory is reported to exist, the copy of
    [<model.uri>/model] is attempted. *)
Lemma sklearn_checks_artifact_directory inp (uri : string) s w w' :
  predictor (objects s !!! config_service_config inp) = "sklearn" ->
  fileio_makedirs (served_root inp) (world s) = (Ret tt, w) ->
  fileio_exists (model_artifact_uri inp) w = (Ret true, w') ->
  let src := PosixPath.join (model_artifact_uri inp) "model" in
  let dst := served_root inp +:+ "/model.joblib" in
  calls (prepare_service_config inp uri s)
  = [mkEvent (Makedirs (served_root inp)) None;
     mkEvent (Exists (model_artifact_uri inp)) None;
     mkEvent (Copy src dst) (raised (fst (fileio_copy src dst w')))].
Proof.
  intros Hp Hmk Hex src dst. subst src dst.
  unfold prepare_service_config. fold (served_root inp).
  rewrite (bind_invoke_ret _ _ _ _ _ _ Hmk). run_pure.
  rewrite Hp. change (String.eqb "sklearn" "tensorflow") with false.
  change (String.eqb "sklearn" "sklearn") with true. cbv iota.
  run_pure. erewrite (bind_invoke_ret (Exists _)) by exact Hex.
  cbn [negb]. cbv iota.
  unfold served_root. rewrite PosixPathFacts.served_root_joblib.
  run_cases; run_done;
    match goal with E : fileio_copy _ _ _ = _ |- _ =>
      cbn [world] in E; rewrite E
    end; reflexivity.
Qed.

End StepFailures.

(** ** Runs on the in-memory collaborators *)

Section Runs.

Import Scenario.

Lemma fake_start_reaches_running : start_reaches_running Fake.cluster.
Proof. intros service timeout w service' w' [= <- _]. reflexivity. Qed.

(** C1, the claim fails: first deployment for (p1, s1, m1), nothing found
    by the lookup, and the deploy call carries [replace = true]. *)
Lemma deploy_new_passes_replace_true :
  let inp := request true "r1" in
  let r := kserve_model_deployer_step inp fresh in
  fst (registry_lookup inp fresh) = Ret []
  /\ result r = Ret (deployed Running)
  /\ replace_flags (calls r) = [true]
  /\ replace_flags (calls r) <> [false].
Proof. vm_compute. repeat split. discriminate. Qed.

(** C2, at an artifact directory without a [model] file: the missing file
    goes unnoticed, the copy is attempted, and what the step raises is
    the storage layer's error for the copy. *)
Lemma sklearn_missing_model_file_not_detected :
  let inp := request true "r1" in
  let r := prepare_service_config inp (model_artifact_uri inp) no_model_file in
  fst (fileio_exists "/store/m/model" (world no_model_file)) = Ret false
  /\ calls r
     = [mkEvent (Makedirs "/out/step/kserve") None;
        mkEvent (Exists "/store/m") None;
        mkEvent (Copy "/store/m/model" "/out/step/kserve/model.joblib")
                (Some (Fake.not_found "/store/m/model"))]
  /\ result r = Raise (Fake.not_found "/store/m/model")
  /\ result r <> Raise (artifact_not_found "/store/m/model").
Proof. vm_compute. repeat split. discriminate. Qed.

(** With no artifact directory at all, the check does fire. *)
Lemma sklearn_missing_directory_detected :
  let inp := request true "r1" in
  let r := prepare_service_config inp (model_artifact_uri inp) no_artifact in
  result r = Raise (artifact_not_found "/store/m/model")
  /\ Forall (fun ev => is_copy (ev_call ev) = false) (calls r).
Proof. vm_compute. repeat constructor. Qed.

(** C8, the claim fails: two requests for different identities fail with
    one and the same exception, so the exception does not tell for which
    identity the step failed. *)
Lemma failure_does_not_carry_identity :
  let a := kserve_model_deployer_step (request true "r1") no_artifact in
  let b := kserve_model_deployer_step other_request other_no_artifact in
  result a
  = Raise (Exn "RuntimeError"
               "Expected sklearn model artifact was not found at /store/m/model")
  /\ result b = result a
  /\ identity (request true "r1") no_artifact = ("p1", "s1", "m1")
  /\ identity other_request other_no_artifact = ("p2", "s2", "m2")
  /\ identity (request true "r1") no_artifact
     <> identity other_request other_no_artifact.
Proof. vm_compute. repeat split. discriminate. Qed.

Lemma negative_decision_reuses_running_service_witness :
  let inp := request false "r2" in
  let r := kserve_model_deployer_step inp (serving Running) in
  result r = Ret (deployed Running)
  /\ calls r = [mkEvent (FindModelServer "p1" "s1" "m1") None]
  /\ Forall (fun ev => is_mutation (ev_call ev) = false) (calls r)
  /\ world (final r) = world (serving Running).
Proof.
  apply (negative_decision_reuses_running_service
           (request false "r2") (serving Running) (deployed Running) []);
    reflexivity.
Defined.

Lemma negative_decision_starts_stopped_service_witness :
  let inp := request false "r2" in
  let r := kserve_model_deployer_step inp (serving Stopped) in
  calls r = [mkEvent (FindModelServer "p1" "s1" "m1") None;
             mkEvent (Start (deployed Stopped) 300) None]
  /\ length (filter (fun ev => is_mutation (ev_call ev) = true) (calls r)) = 1%nat
  /\ result r = Ret (deployed Running)
  /\ state (deployed Running) = Running.
Proof.
  apply (negative_decision_starts_stopped_service
           (request false "r2") (serving Stopped) (deployed Stopped) []
           (world (serving Stopped)) (deployed Running)
           (Fake.mkCluster ["/store/m"; "/store/m/model"] [deployed Running])
           fake_start_reaches_running);
    reflexivity.
Defined.

Lemma negative_decision_without_service_deploys_witness :
  kserve_model_deployer_step (with_decision false (request false "r1")) fresh
  = kserve_model_deployer_step (with_decision true (request false "r1")) fresh
  /\ kserve_model_deployer_step (with_decision false (request false "r1")) fresh
     = after (FindModelServer "p1" "s1" "m1")
             (deploy_path (request false "r1")
                (mkStore (objects (stamped (request false "r1") fresh))
                         (world fresh))).
Proof.
  apply (negative_decision_without_service_deploys
           (request false "r1") fresh (world fresh)).
  reflexivity.
Defined.

Lemma tensorflow_stages_into_slot_1_witness :
  let inp := request true "r1" in
  let r := prepare_service_config inp "/store/deep/er/m" tensorflow_store in
  calls r = [mkEvent (Makedirs "/out/step/kserve") None;
             mkEvent (CopyDir "/store/deep/er/m" "/out/step/kserve/1") None]
  /\ exists service_config : ref,
       result r = Ret service_config
       /\ model_uri (objects (final r) !!! service_config) = "/out/step/kserve".
Proof.
  eapply (tensorflow_stages_into_slot_1
            (request true "r1") "/store/deep/er/m" tensorflow_store);
    vm_compute; reflexivity.
Defined.

Lemma other_predictors_serve_in_place_witness :
  let inp := request true "r1" in
  let r := prepare_service_config inp "/store/m" xgboost_store in
  calls r = [mkEvent (Makedirs "/out/step/kserve") None]
  /\ Forall (fun ev => is_copy (ev_call ev) = false) (calls r)
  /\ (forall service_config : ref,
        result r = Ret service_config ->
        model_uri (objects (final r) !!! service_config) = "/store/m")
  /\ (Ret tt = Ret tt -> exists service_config : ref, result r = Ret service_config).
Proof.
  refine (other_predictors_serve_in_place
            (request true "r1") "/store/m" xgboost_store _ _);
    vm_compute; discriminate.
Defined.

Lemma prepare_service_config_copies_witness :
  let inp := request true "r1" in
  let r := prepare_service_config inp "/store/m" fresh in
  (forall i : ref, (i < 1)%nat -> objects (final r) !! i = objects fresh !! i)
  /\ forall service_config : ref,
       result r = Ret service_config ->
       service_config <> 0%nat
       /\ exists copy,
            objects (final r) !! service_config = Some copy
            /\ model_uri copy = "/out/step/kserve"
            /\ pipeline_name copy = pipeline_name config
            /\ pipeline_run_id copy = pipeline_run_id config
            /\ pipeline_step_name copy = pipeline_step_name config
            /\ model_name copy = model_name config
            /\ predictor copy = predictor config
            /\ settings copy = settings config.
Proof.
  apply (prepare_service_config_copies (request true "r1") "/store/m" fresh).
  vm_compute. lia.
Defined.

End Runs.

(** * Further properties of the step

    What the step and its helper do beyond the cases above: where staging
    writes, what the sklearn branch does, which configuration is deployed,
    and in which order the collaborators are called. *)

(** ** Vocabulary *)

(** [path.startswith(root + "/")] *)
Definition below (root path : string) : bool := String.prefix (root +:+ "/") path.

(** The registry lookup. *)
Definition is_lookup (c : call) : bool :=
  match c with
  | FindModelServer _ _ _ => true
  | _ => false
  end.

(** A call that writes to the storage, and where. *)
Definition written_path (c : call) : option string :=
  match c with
  | Makedirs path => Some path
  | Copy _ dst | CopyDir _ dst => Some dst
  | _ => None
  end.

(** The calls the helper can make: the served directory, the test of the
    artifact directory, and the two copies. *)
Definition staging_call (inp : step_inputs) (uri : string) (c : call) : Prop :=
  c = Makedirs (served_root inp)
  \/ c = Exists (model_artifact_uri inp)
  \/ c = CopyDir uri (served_root inp +:+ "/1")
  \/ c = Copy (PosixPath.join (model_artifact_uri inp) "model")
              (served_root inp +:+ "/model.joblib").

(** The configuration the step hands to [deploy_model], given the
    configuration object it was called with. *)
Definition deployed_config (inp : step_inputs)
    (original : KServeDeploymentConfig) : KServeDeploymentConfig :=
  set_model_uri (served_uri_for (predictor original) inp (model_artifact_uri inp))
                (with_runtime_info inp original).

(** The same, read from the stamped object in the store. *)
Definition staged_config {W} (inp : step_inputs) (s : store W)
  : KServeDeploymentConfig :=
  let stamped_cfg := objects (stamped inp s) !!! config_service_config inp in
  set_model_uri
    (served_uri_for (predictor stamped_cfg) inp (model_artifact_uri inp))
    stamped_cfg.

(** The event of the step's registry lookup. *)
Definition lookup_event `{Collaborators W} (inp : step_inputs) (s : store W)
  : event :=
  mkEvent (lookup_call inp s) (raised (fst (registry_lookup inp s))).

(** What can follow the lookup in a run of the step: nothing; one [start] of
    the first service found; the staging calls alone; or the staging calls,
    all returned, and then one [deploy_model]. *)
Definition step_tail `{Collaborators W} (inp : step_inputs) (s : store W)
    (rest : list event) : Prop :=
  rest = []
  \/ (exists service others w o,
        registry_lookup inp s = (Ret (service :: others), w)
        /\ deploy_decision inp = false
        /\ is_running service = false
        /\ rest = [mkEvent (Start service (config_timeout inp)) o])
  \/ (exists existing w staging,
        registry_lookup inp s = (Ret existing, w)
        /\ (deploy_decision inp = true \/ existing = [])
        /\ Forall (fun ev => staging_call inp (model_artifact_uri inp) (ev_call ev))
                  staging
        /\ (rest = staging
            \/ exists o,
                 Forall quiet staging
                 /\ rest = staging
                           ++ [mkEvent (DeployModel (staged_config inp s) true
                                                    (config_timeout inp)) o])).

(** ** The helper's calls and objects *)

Section StagingFacts.

Context {W : Type} `{Collaborators W}.

Implicit Types (inp : step_inputs) (s : store W).

Lemma prefix_append (a b : string) : String.prefix a (a +:+ b) = true.
Proof.
  induction a as [|x a IH]; [now destruct b|].
  rewrite PosixPathFacts.append_cons. cbn [String.prefix].
  destruct (ascii_dec x x); [exact IH | congruence].
Qed.

Lemma below_child (root name : string) : below root (root +:+ "/" +:+ name) = true.
Proof.
  unfold below. rewrite <- PosixPathFacts.append_assoc. apply prefix_append.
Qed.

Lemma prepare_call_forms inp (uri : string) s :
  Forall (fun ev => staging_call inp uri (ev_call ev))
         (calls (prepare_service_config inp uri s)).
Proof.
  unfold prepare_service_config.
  rewrite PosixPathFacts.served_root_slot, PosixPathFacts.served_root_joblib.
  fold (served_root inp).
  run_cases; run_done;
    repeat first
      [ apply Forall_nil
      | apply Forall_cons; [unfold staging_call; cbn [ev_call]; auto 6|] ].
Qed.

(** What the helper leaves in the object store: one new object when it
    returns, nothing new when it raises. *)
Lemma prepare_objects inp (uri : string) s :
  let r := prepare_service_config inp uri s in
  let original := objects s !!! config_service_config inp in
  match result r with
  | Ret service_config =>
      service_config = length (objects s)
      /\ objects (final r)
         = objects s
           ++ [set_model_uri (served_uri_for (predictor original) inp uri) original]
  | Raise _ => objects (final r) = objects s
  end.
Proof.
  intros r original. subst r original.
  unfold served_uri_for, prepare_service_config. fold (served_root inp).
  run_cases; rewrite ?copy_then_set; run_done; auto.
Qed.

(** X1: whatever the predictor and the outcome, the helper creates the
    served directory and nothing else at that level, and every copy it makes
    goes to a path strictly below the served directory. *)
Theorem staging_stays_below_served_root inp (uri : string) s :
  Forall (fun ev =>
            forall path, written_path (ev_call ev) = Some path ->
              path = served_root inp \/ below (served_root inp) path = true)
         (calls (prepare_service_config inp uri s)).
Proof.
  eapply Forall_impl; [|apply prepare_call_forms].
  intros ev [-> | [-> | [-> | ->]]] path; cbn [written_path]; intros [= <-].
  - now left.
  - right. apply (below_child _ "1").
  - right. apply (below_child _ "model.joblib").
Qed.

End StagingFacts.

(** ** The sklearn branch *)

Section SklearnFacts.

Context {W : Type} `{Collaborators W}.

Implicit Types (inp : step_inputs) (s : store W).

Lemma sklearn_branch inp (uri : string) s w :
  predictor (objects s !!! config_service_config inp) = "sklearn" ->
  fileio_makedirs (served_root inp) (world s) = (Ret tt, w) ->
  prepare_service_config inp uri s
  = after (Makedirs (served_root inp))
      ((served_model_uri <-
          (found <- invoke (Exists (model_artifact_uri inp))
                           (fileio_exists (model_artifact_uri inp)) ;;
           if negb found
           then raise (artifact_not_found
                         (PosixPath.join (model_artifact_uri inp) "model"))
           else
             invoke (Copy (PosixPath.join (model_artifact_uri inp) "model")
                          (served_root inp +:+ "/model.joblib"))
                    (fileio_copy (PosixPath.join (model_artifact_uri inp) "model")
                                 (served_root inp +:+ "/model.joblib")) ;;;
             ret (served_root inp)) ;;
        service_config <- copy_object (config_service_config inp) ;;
        setattr service_config (set_model_uri served_model_uri) ;;;
        ret service_config) (mkStore (objects s) w)).
Proof.
  intros Hp Hmk.
  unfold prepare_service_config. fold (served_root inp).
  rewrite (bind_invoke_ret _ _ _ _ _ _ Hmk), bind_load. cbn [objects].
  rewrite Hp. change (String.eqb "sklearn" "tensorflow") with false.
  change (String.eqb "sklearn" "sklearn") with true. cbv iota.
  unfold served_root. now rewrite PosixPathFacts.served_root_joblib.
Qed.

(** X2: with predictor "sklearn", once the artifact directory is reported to
    exist and the copy returns, the helper has copied [<model.uri>/model] to
    [<served root>/model.joblib] (whatever URI it was called with), made no
    other copy, and returns a configuration whose [model_uri] is the served
    root. *)
Theorem sklearn_stages_model_joblib inp (uri : string) s w w1 w2 :
  predictor (objects s !!! config_service_config inp) = "sklearn" ->
  fileio_makedirs (served_root inp) (world s) = (Ret tt, w) ->
  fileio_exists (model_artifact_uri inp) w = (Ret true, w1) ->
  fileio_copy (PosixPath.join (model_artifact_uri inp) "model")
              (served_root inp +:+ "/model.joblib") w1 = (Ret tt, w2) ->
  let r := prepare_service_config inp uri s in
  calls r = [mkEvent (Makedirs (served_root inp)) None;
             mkEvent (Exists (model_artifact_uri inp)) None;
             mkEvent (Copy (PosixPath.join (model_artifact_uri inp) "model")
                           (served_root inp +:+ "/model.joblib")) None]
  /\ world (final r) = w2
  /\ exists service_config : ref,
       result r = Ret service_config
       /\ model_uri (objects (final r) !!! service_config) = served_root inp.
Proof.
  intros Hp Hmk Hex Hcp r. subst r.
  rewrite (sklearn_branch _ _ _ _ Hp Hmk). run_pure.
  erewrite (bind_invoke_ret (Exists _)) by exact Hex. cbn [negb]. cbv iota.
  run_pure. erewrite (bind_invoke_ret (Copy _ _)) by exact Hcp. run_pure.
  rewrite copy_then_set. run_done.
  repeat split. eexists; split; [reflexivity|].
  now rewrite snoc_lookup_total_last.
Qed.

(** X3: with predictor "sklearn", when the artifact directory is reported
    missing, the helper raises the [RuntimeError] that names
    [<model.uri>/model]; it has created the served directory but copied
    nothing, and it has allocated no configuration object. *)
Theorem sklearn_missing_artifact_raises inp (uri : string) s w w1 :
  predictor (objects s !!! config_service_config inp) = "sklearn" ->
  fileio_makedirs (served_root inp) (world s) = (Ret tt, w) ->
  fileio_exists (model_artifact_uri inp) w = (Ret false, w1) ->
  let r := prepare_service_config inp uri s in
  result r
  = Raise (RuntimeError
             ("Expected sklearn model artifact was not found at "
              +:+ PosixPath.join (model_artifact_uri inp) "model"))
  /\ calls r = [mkEvent (Makedirs (served_root inp)) None;
                mkEvent (Exists (model_artifact_uri inp)) None]
  /\ objects (final r) = objects s
  /\ world (final r) = w1.
Proof.
  intros Hp Hmk Hex r. subst r.
  rewrite (sklearn_branch _ _ _ _ Hp Hmk). run_pure.
  erewrite (bind_invoke_ret (Exists _)) by exact Hex. cbn [negb]. cbv iota.
  run_pure. run_done. repeat split.
Qed.

End SklearnFacts.

(** ** The two ends of the step, as runs *)

Section PathFacts.

Context {W : Type} `{Collaborators W}.

Implicit Types (inp : step_inputs) (s : store W).

Lemma reuse_path_run inp service s :
  reuse_path inp service s
  = if is_running service then mkRun (Ret service) s []
    else
      let started := service_start service (config_timeout inp) (world s) in
      mkRun (fst started) (mkStore (objects s) (snd started))
            [mkEvent (Start service (config_timeout inp)) (raised (fst started))].
Proof.
  unfold reuse_path. rewrite bind_ret_r.
  now destruct (is_running service).
Qed.

Lemma deploy_path_run inp s :
  let staged := prepare_service_config inp (model_artifact_uri inp) s in
  deploy_path inp s
  = match result staged with
    | Ret service_config =>
        let cfg := objects (final staged) !!! service_config in
        let deployed :=
          deploy_model cfg true (config_timeout inp) (world (final staged)) in
        mkRun (fst deployed)
              (mkStore (objects (final staged)) (snd deployed))
              (calls staged
                 ++ [mkEvent (DeployModel cfg true (config_timeout inp))
                             (raised (fst deployed))])
    | Raise e => mkRun (Raise e) (final staged) (calls staged)
    end.
Proof.
  intros staged. subst staged. unfold deploy_path.
  destruct (result (prepare_service_config inp (model_artifact_uri inp) s))
    as [service_config|e] eqn:Hres.
  - rewrite (bind_run_ret _ _ _ _ Hres), bind_load. reflexivity.
  - now rewrite (bind_run_raise _ _ _ _ Hres).
Qed.

Lemma staging_call_kind inp (uri : string) c :
  staging_call inp uri c -> is_mutation c = false /\ is_lookup c = false.
Proof. intros [-> | [-> | [-> | ->]]]; now split. Qed.

Lemma staging_calls_are_storage inp (uri : string) s :
  Forall (fun ev => is_mutation (ev_call ev) = false /\ is_lookup (ev_call ev) = false)
         (calls (prepare_service_config inp uri s)).
Proof.
  eapply Forall_impl; [|apply prepare_call_forms].
  intros ev. apply staging_call_kind.
Qed.

(** When the helper returns, all its calls returned. *)
Lemma staging_returned_quietly inp s service_config :
  result (prepare_service_config inp (model_artifact_uri inp) s) = Ret service_config ->
  Forall quiet (calls (prepare_service_config inp (model_artifact_uri inp) s)).
Proof.
  intros Hres. pose proof (prepare_service_config_faithful inp s) as Hf.
  unfold faithful in Hf. now rewrite Hres in Hf.
Qed.

Lemma stamped_lookup inp s :
  (config_service_config inp < length (objects s))%nat ->
  objects (stamped inp s) !!! config_service_config inp
  = with_runtime_info inp (objects s !!! config_service_config inp).
Proof. intros Hv. unfold stamped. cbn [objects]. now rewrite list_lookup_total_insert_eq. Qed.

Lemma stamped_length inp s : length (objects (stamped inp s)) = length (objects s).
Proof. unfold stamped. cbn [objects]. apply length_insert. Qed.

End PathFacts.

(** Case analysis on the lookup and the decision: the step is one of its
    three runs. *)
Ltac step_cases inp s :=
  let Hl := fresh "Hl" in
  let Hd := fresh "Hd" in
  destruct (registry_lookup inp s) as [[[|?service ?others]|?e] ?w] eqn:Hl;
  [ rewrite (step_deploys _ _ _ _ Hl (or_intror eq_refl))
  | destruct (deploy_decision inp) eqn:Hd;
    [ rewrite (step_deploys _ _ _ _ Hl (or_introl Hd))
    | rewrite (step_reuses _ _ _ _ _ Hl Hd) ]
  | rewrite (step_lookup_raises _ _ _ _ Hl) ].

(** ** The shape of a run *)

Section ShapeFacts.

Context {W : Type} `{Collaborators W}.

Implicit Types (inp : step_inputs) (s : store W).

Lemma deploy_path_tail inp s existing w :
  registry_lookup inp s = (Ret existing, w) ->
  deploy_decision inp = true \/ existing = [] ->
  let r := deploy_path inp (mkStore (objects (stamped inp s)) w) in
  step_tail inp s (calls r)
  /\ exists ext, objects (final r) = objects (stamped inp s) ++ ext.
Proof.
  intros Hl Hb r. subst r. rewrite deploy_path_run. cbv zeta.
  set (s' := mkStore (objects (stamped inp s)) w).
  pose proof (prepare_call_forms inp (model_artifact_uri inp) s') as Hforms.
  pose proof (prepare_objects inp (model_artifact_uri inp) s') as Hobj.
  cbv zeta in Hobj.
  destruct (result (prepare_service_config inp (model_artifact_uri inp) s'))
    as [service_config|e] eqn:Hres; cbn [calls final objects].
  - destruct Hobj as [-> Hobj]. split; [|eauto].
    right; right. exists existing, w, (calls (prepare_service_config inp (model_artifact_uri inp) s')).
    repeat split; try assumption.
    right. eexists. split; [now apply staging_returned_quietly with (service_config := length (objects s'))|].
    rewrite Hobj, snoc_lookup_total_last. reflexivity.
  - split.
    + right; right. exists existing, w, (calls (prepare_service_config inp (model_artifact_uri inp) s')).
      repeat split; try assumption. now left.
    + exists []. now rewrite app_nil_r.
Qed.

(** Every run of the step: the lookup, then one of the four tails; and every
    object of the stamped store is still in place at the end. *)
Lemma step_shape inp s :
  let r := kserve_model_deployer_step inp s in
  (exists rest, calls r = lookup_event inp s :: rest /\ step_tail inp s rest)
  /\ exists ext, objects (final r) = objects (stamped inp s) ++ ext.
Proof.
  intros r. subst r. unfold lookup_event.
  step_cases inp s; cbn [fst raised]; unfold after; cbn [calls final].
  - destruct (deploy_path_tail inp s [] w Hl (or_intror eq_refl)) as [Ht Hobj].
    split; [eauto | exact Hobj].
  - destruct (deploy_path_tail inp s _ w Hl (or_introl Hd)) as [Ht Hobj].
    split; [eauto | exact Hobj].
  - rewrite reuse_path_run.
    destruct (is_running service) eqn:Hrun; cbn [calls final objects].
    + split; [exists []; split; [reflexivity | now left] | exists []; now rewrite app_nil_r].
    + split; [|exists []; now rewrite app_nil_r].
      eexists. split; [reflexivity|].
      right; left. exists service, others, w. eauto 6.
  - split; [exists []; split; [reflexivity | now left] | exists []; now rewrite app_nil_r].
Qed.

End ShapeFacts.

(** ** What every run of the step does *)

Section RunFacts.

Context {W : Type} `{Collaborators W}.

Implicit Types (inp : step_inputs) (s : store W).

Lemma no_mutation_in_staging inp (staging : list event) :
  Forall (fun ev => staging_call inp (model_artifact_uri inp) (ev_call ev)) staging ->
  Forall (fun ev => is_mutation (ev_call ev) = false /\ is_lookup (ev_call ev) = false)
         staging.
Proof.
  apply Forall_impl. intros ev. apply staging_call_kind.
Qed.

(** X4: after every run of the step, returned or raised, the object
    [config.service_config] carries the pipeline name, run id and step name
    of the step environment and is otherwise as it was (its [model_uri]
    included); every other object that existed before the run is unchanged. *)
Theorem step_stamps_config inp s :
  (config_service_config inp < length (objects s))%nat ->
  let r := kserve_model_deployer_step inp s in
  let original := objects s !!! config_service_config inp in
  let stamped_cfg := objects (final r) !!! config_service_config inp in
  pipeline_name stamped_cfg = step_env_pipeline_name inp
  /\ pipeline_run_id stamped_cfg = step_env_pipeline_run_id inp
  /\ pipeline_step_name stamped_cfg = step_env_step_name inp
  /\ model_name stamped_cfg = model_name original
  /\ model_uri stamped_cfg = model_uri original
  /\ predictor stamped_cfg = predictor original
  /\ settings stamped_cfg = settings original
  /\ forall i : ref,
       (i < length (objects s))%nat -> i <> config_service_config inp ->
       objects (final r) !! i = objects s !! i.
Proof.
  intros Hv r original stamped_cfg. subst r original stamped_cfg.
  destruct (step_shape inp s) as [_ [ext ->]].
  rewrite lookup_total_app_l by (now rewrite stamped_length).
  rewrite stamped_lookup by exact Hv.
  repeat split.
  intros i Hi Hne.
  rewrite lookup_app_l by (now rewrite stamped_length).
  unfold stamped. cbn [objects]. now rewrite list_lookup_insert_ne.
Qed.

(** X5: every [deploy_model] call of the step is made with
    [replace = true], the configured timeout, and a configuration that is
    [config.service_config] with the environment's pipeline name, run id and
    step name and with the served URI as [model_uri]; its pipeline name,
    step name and model name are the three arguments of the step's registry
    lookup. *)
Theorem deploy_call_carries_identity inp s cfg replace timeout o :
  (config_service_config inp < length (objects s))%nat ->
  mkEvent (DeployModel cfg replace timeout) o
    ∈ calls (kserve_model_deployer_step inp s) ->
  cfg = deployed_config inp (objects s !!! config_service_config inp)
  /\ replace = true
  /\ timeout = config_timeout inp
  /\ lookup_call inp s
     = FindModelServer (pipeline_name cfg) (pipeline_step_name cfg) (model_name cfg)
  /\ pipeline_run_id cfg = step_env_pipeline_run_id inp.
Proof.
  intros Hv Hin.
  assert (Hcfg : staged_config inp s
                 = deployed_config inp (objects s !!! config_service_config inp)).
  { unfold staged_config, deployed_config. cbv zeta.
    now rewrite stamped_lookup by exact Hv. }
  destruct (step_shape inp s) as [(rest & Hcalls & Htail) _].
  rewrite Hcalls in Hin. apply elem_of_cons in Hin as [Hin | Hin]; [discriminate Hin|].
  destruct Htail as [-> | [(service & others & w & o' & _ & _ & _ & ->)
                          | (existing & w & staging & _ & _ & Hst & Hrest)]].
  - now apply elem_of_nil in Hin.
  - apply list_elem_of_singleton in Hin. discriminate Hin.
  - assert (Hno : mkEvent (DeployModel cfg replace timeout) o ∉ staging).
    { intros Hmem. apply no_mutation_in_staging in Hst.
      rewrite Forall_forall in Hst.
      now destruct (Hst _ (proj1 (list_elem_of_In _ _) Hmem)). }
    destruct Hrest as [-> | (o' & _ & ->)]; [contradiction|].
    apply elem_of_app in Hin as [Hin | Hin]; [contradiction|].
    apply list_elem_of_singleton in Hin. injection Hin as -> -> -> _.
    rewrite Hcfg. repeat split.
Qed.

(** X6: in every run the registry lookup is the first call and the only
    lookup; the backend is changed at most once ([deploy_model] or [start]),
    by the last call of the run, and only after the lookup and every call in
    between have returned. *)
Theorem step_call_order inp s :
  exists rest,
    calls (kserve_model_deployer_step inp s) = lookup_event inp s :: rest
    /\ Forall (fun ev => is_lookup (ev_call ev) = false) rest
    /\ (Forall (fun ev => is_mutation (ev_call ev) = false) rest
        \/ exists before last,
             rest = before ++ [last]
             /\ is_mutation (ev_call last) = true
             /\ Forall (fun ev => is_mutation (ev_call ev) = false /\ quiet ev) before
             /\ quiet (lookup_event inp s)).
Proof.
  destruct (step_shape inp s) as [(rest & Hcalls & Htail) _].
  exists rest. split; [exact Hcalls|].
  destruct Htail as [-> | [(service & others & w & o' & Hl & _ & _ & ->)
                          | (existing & w & staging & Hl & _ & Hst & Hrest)]].
  - split; [constructor | left; constructor].
  - split; [repeat constructor|].
    right. exists [], (mkEvent (Start service (config_timeout inp)) o').
    repeat split; [constructor|].
    unfold quiet, lookup_event. cbn [ev_raised]. now rewrite Hl.
  - pose proof (no_mutation_in_staging _ _ Hst) as Hkind.
    destruct Hrest as [-> | (o' & Hq & ->)].
    + split; [|left]; eapply Forall_impl; try exact Hkind; now intros ev [? ?].
    + split.
      * apply Forall_app. split; [|repeat constructor].
        eapply Forall_impl; [|exact Hkind]. now intros ev [? ?].
      * right. eexists staging, _. repeat split.
        -- rewrite Forall_forall in Hkind, Hq. apply Forall_forall.
           intros ev Hev. split; [now destruct (Hkind _ Hev) | now apply Hq].
        -- unfold quiet, lookup_event. cbn [ev_raised]. now rewrite Hl.
Qed.

(** X7: [start] is called only under a negative decision, on the first
    service the lookup returned, when that service is not running, and with
    the configured timeout; the run then consists of the lookup and that
    call. *)
Theorem start_only_for_stopped_service inp s service timeout o :
  mkEvent (Start service timeout) o ∈ calls (kserve_model_deployer_step inp s) ->
  deploy_decision inp = false
  /\ is_running service = false
  /\ timeout = config_timeout inp
  /\ (exists others w, registry_lookup inp s = (Ret (service :: others), w))
  /\ calls (kserve_model_deployer_step inp s)
     = [lookup_event inp s; mkEvent (Start service timeout) o].
Proof.
  intros Hin.
  destruct (step_shape inp s) as [(rest & Hcalls & Htail) _].
  rewrite Hcalls in Hin |- *.
  apply elem_of_cons in Hin as [Hin | Hin]; [discriminate Hin|].
  destruct Htail as [-> | [(service' & others & w & o' & Hl & Hd & Hrun & ->)
                          | (existing & w & staging & _ & _ & Hst & Hrest)]].
  - now apply elem_of_nil in Hin.
  - apply list_elem_of_singleton in Hin. injection Hin as -> -> ->.
    repeat split; try assumption. eauto.
  - exfalso.
    assert (Hno : mkEvent (Start service timeout) o ∉ staging).
    { intros Hmem. apply no_mutation_in_staging in Hst.
      rewrite Forall_forall in Hst.
      now destruct (Hst _ (proj1 (list_elem_of_In _ _) Hmem)). }
    destruct Hrest as [-> | (o' & _ & ->)]; [contradiction|].
    apply elem_of_app in Hin as [Hin | Hin]; [contradiction|].
    apply list_elem_of_singleton in Hin. discriminate Hin.
Qed.

(** X14: on either deploy branch (nothing found, or a positive decision),
    once staging has returned, the step ends as [deploy_model] ends: called
    on the deployed configuration in the world staging left, what it returns
    is what the step returns, what it raises is what the step raises, and
    the world it leaves is the step's. *)
Theorem step_returns_deployed_service inp s existing w service_config :
  (config_service_config inp < length (objects s))%nat ->
  registry_lookup inp s = (Ret existing, w) ->
  deploy_decision inp = true \/ existing = [] ->
  let staged :=
    prepare_service_config inp (model_artifact_uri inp)
                           (mkStore (objects (stamped inp s)) w) in
  result staged = Ret service_config ->
  let deployed :=
    deploy_model (deployed_config inp (objects s !!! config_service_config inp))
                 true (config_timeout inp) (world (final staged)) in
  let r := kserve_model_deployer_step inp s in
  result r = fst deployed /\ world (final r) = snd deployed.
Proof.
  intros Hv Hl Hb staged Hres deployed r. subst staged deployed r.
  rewrite (step_deploys _ _ _ _ Hl Hb). unfold after. cbn [result final].
  rewrite deploy_path_run. cbv zeta. rewrite Hres.
  pose proof (prepare_objects inp (model_artifact_uri inp)
                (mkStore (objects (stamped inp s)) w)) as Hobj.
  cbv zeta in Hobj. rewrite Hres in Hobj. destruct Hobj as [-> Hobj].
  rewrite Hobj, snoc_lookup_total_last. cbn [objects result final world].
  rewrite stamped_lookup by exact Hv.
  split; reflexivity.
Qed.

End RunFacts.

(** ** Runs of the step on the in-memory collaborators, continued *)

Section MoreRuns.

Import Scenario.

Lemma sklearn_stages_model_joblib_witness :
  let inp := request true "r1" in
  let r := prepare_service_config inp "/elsewhere" fresh in
  calls r = [mkEvent (Makedirs "/out/step/kserve") None;
             mkEvent (Exists "/store/m") None;
             mkEvent (Copy "/store/m/model" "/out/step/kserve/model.joblib") None]
  /\ world (final r)
     = Fake.mkCluster ["/out/step/kserve/model.joblib"; "/out/step/kserve";
                       "/store/m"; "/store/m/model"] []
  /\ exists service_config : ref,
       result r = Ret service_config
       /\ model_uri (objects (final r) !!! service_config) = "/out/step/kserve".
Proof.
  refine (sklearn_stages_model_joblib (request true "r1") "/elsewhere" fresh
            _ _ _ _ _ _ _); vm_compute; reflexivity.
Defined.

Lemma sklearn_missing_artifact_raises_witness :
  let inp := request true "r1" in
  let r := prepare_service_config inp "/store/m" no_artifact in
  result r
  = Raise (RuntimeError
             "Expected sklearn model artifact was not found at /store/m/model")
  /\ calls r = [mkEvent (Makedirs "/out/step/kserve") None;
                mkEvent (Exists "/store/m") None]
  /\ objects (final r) = objects no_artifact
  /\ world (final r) = Fake.mkCluster ["/out/step/kserve"] [].
Proof.
  refine (sklearn_missing_artifact_raises (request true "r1") "/store/m" no_artifact
            _ _ _ _ _); vm_compute; reflexivity.
Defined.

Lemma step_stamps_config_witness :
  let inp := request true "r7" in
  let r := kserve_model_deployer_step inp no_artifact in
  let stamped_cfg := objects (final r) !!! 0%nat in
  pipeline_name stamped_cfg = "p1"
  /\ pipeline_run_id stamped_cfg = "r7"
  /\ pipeline_step_name stamped_cfg = "s1"
  /\ model_name stamped_cfg = "m1"
  /\ model_uri stamped_cfg = model_uri config
  /\ predictor stamped_cfg = "sklearn"
  /\ settings stamped_cfg = [("replicas", "1")]
  /\ forall i : ref,
       (i < 1)%nat -> i <> 0%nat ->
       objects (final r) !! i = objects no_artifact !! i.
Proof.
  refine (step_stamps_config (request true "r7") no_artifact _).
  vm_compute. lia.
Defined.

Lemma deploy_call_carries_identity_witness :
  let cfg := mkConfig "p1" "r1" "s1" "m1" "/out/step/kserve" "sklearn"
                      [("replicas", "1")] in
  cfg = deployed_config (request true "r1") config
  /\ true = true
  /\ 300 = config_timeout (request true "r1")
  /\ lookup_call (request true "r1") fresh = FindModelServer "p1" "s1" "m1"
  /\ pipeline_run_id cfg = "r1".
Proof.
  refine (deploy_call_carries_identity (request true "r1") fresh
            (mkConfig "p1" "r1" "s1" "m1" "/out/step/kserve" "sklearn"
                      [("replicas", "1")])
            true 300 None _ _).
  - vm_compute. lia.
  - apply list_elem_of_In. vm_compute. tauto.
Defined.

Lemma start_only_for_stopped_service_witness :
  let inp := request false "r2" in
  deploy_decision inp = false
  /\ is_running (deployed Stopped) = false
  /\ 300 = config_timeout inp
  /\ (exists others w,
        registry_lookup inp (serving Stopped) = (Ret (deployed Stopped :: others), w))
  /\ calls (kserve_model_deployer_step inp (serving Stopped))
     = [lookup_event inp (serving Stopped);
        mkEvent (Start (deployed Stopped) 300) None].
Proof.
  refine (start_only_for_stopped_service (request false "r2") (serving Stopped)
            (deployed Stopped) 300 None _).
  apply list_elem_of_In. vm_compute. tauto.
Defined.

Lemma step_returns_deployed_service_witness :
  let inp := request true "r1" in
  let r := kserve_model_deployer_step inp fresh in
  result r = Ret (deployed Running)
  /\ world (final r)
     = Fake.mkCluster ["/out/step/kserve/model.joblib"; "/out/step/kserve";
                       "/store/m"; "/store/m/model"] [deployed Running].
Proof.
  refine (step_returns_deployed_service (request true "r1") fresh [] (world fresh)
            1%nat _ _ _ _).
  - vm_compute. lia.
  - reflexivity.
  - now right.
  - reflexivity.
Defined.

End MoreRuns.

(** * The artifact store base class

    [src/zenml/artifact_stores/base_artifact_store.py]: the decorator
    [_catch_not_found_error], the validator [_ensure_artifact_store] and the
    filesystem class that [_register] builds.  The storage calls of the
    step above end in such a filesystem. *)

From stdpp Require Import gmap.

Module ArtifactStore.

(** A Python exception: its class, the arguments it was built with, and its
    [__cause__] (set by [raise ... from ...]). *)
Inductive exc :=
| Exc (cls : string) (args : list string)
| ExcFrom (cls : string) (args : list string) (cause : exc).

Definition exc_class (e : exc) : string :=
  match e with Exc cls _ | ExcFrom cls _ _ => cls end.

Definition exc_cause (e : exc) : option exc :=
  match e with Exc _ _ => None | ExcFrom _ _ cause => Some cause end.

Inductive res (A : Type) :=
| Returned (a : A)
| Raised (e : exc).
Arguments Returned {A} a.
Arguments Raised {A} e.

(** A method called with arguments [Args] in a world [W]: what it returns or
    raises, and the world it leaves. *)
Definition method (W Args V : Type) : Type := Args -> W -> res V * W.

(** The validated field values of a store, by field name.  [path] is a
    [str] field, validated before the root validator runs. *)
Definition field_values : Type := gmap string string.

(** What the validator reads of the class: the title of its schema and the
    class variable [SUPPORTED_SCHEMES], if the class defines one. *)
Record store_class := mkClass {
  schema_title : string;
  SUPPORTED_SCHEMES : option (gset string)
}.

Section Code.

(** The exception classes of the program: [issubclass c d]. *)
Variable issubclass : string -> string -> bool.

(** The texts of the two [ArtifactStoreInterfaceError] messages: a fixed
    one, and one formatted from the path, the schema title and the set of
    schemes. *)
Variable missing_schemes_message : string.
Variable unsupported_path_message : string -> string -> gset string -> string.

Context {W Args V : Type}.

(** [except FileNotFoundError] *)
Definition is_file_not_found (e : exc) : bool :=
  issubclass (exc_class e) "FileNotFoundError".

Definition _catch_not_found_error (_func : method W Args V) : method W Args V :=
  fun args w =>
    let called := _func args w in
    match fst called with
    | Returned v => (Returned v, snd called)
    | Raised e =>
        if is_file_not_found e
        then (Raised (ExcFrom "NotFoundError" [] e), snd called)
        else (Raised e, snd called)
    end.

Definition ArtifactStoreInterfaceError (msg : string) : exc :=
  Exc "ArtifactStoreInterfaceError" [msg].

(** [any(path.startswith(i) for i in schemes)] *)
Definition starts_with_any (schemes : gset string) (path : string) : bool :=
  existsb (fun i => String.prefix i path) (elements schemes).

Definition _ensure_artifact_store (cls : store_class) (values : field_values)
  : res field_values :=
  match SUPPORTED_SCHEMES cls with
  | None => Raised (ArtifactStoreInterfaceError missing_schemes_message)
  | Some schemes =>
      match values !! "path" with
      | None => Raised (Exc "KeyError" ["path"])
      | Some path =>
          if negb (starts_with_any schemes path)
          then Raised (ArtifactStoreInterfaceError
                         (unsupported_path_message path (schema_title cls) schemes))
          else Returned values
      end
  end.

(** An artifact store object: the name of its class, its schemes and its
    thirteen file operations. *)
Record artifact_store := mkArtifactStore {
  class_name : string;
  store_schemes : gset string;
  store_open : method W Args V;
  store_copyfile : method W Args V;
  store_exists : method W Args V;
  store_glob : method W Args V;
  store_isdir : method W Args V;
  store_listdir : method W Args V;
  store_makedirs : method W Args V;
  store_mkdir : method W Args V;
  store_remove : method W Args V;
  store_rename : method W Args V;
  store_rmtree : method W Args V;
  store_stat : method W Args V;
  store_walk : method W Args V
}.

(** The class [type(name, (Filesystem,), namespace)] creates: its name, its
    bases, and its namespace, split into the schemes and the static
    methods by name. *)
Record filesystem_class := mkFilesystem {
  fs_name : string;
  fs_bases : list string;
  fs_schemes : gset string;
  fs_methods : list (string * method W Args V)
}.

(** The call [DEFAULT_FILESYSTEM_REGISTRY.register(filesystem_class,
    priority=priority)] that [_register] ends with. *)
Record registration := mkRegistration {
  registered_class : filesystem_class;
  registered_priority : Z
}.

(** [_register(self, priority=5)]; [None] stands for the omitted argument. *)
Definition _register (self : artifact_store) (priority : option Z) : registration :=
  let priority := default 5%Z priority in
  let filesystem_class :=
    mkFilesystem (class_name self) ["Filesystem"] (store_schemes self)
      [("open", _catch_not_found_error (store_open self));
       ("copy", _catch_not_found_error (store_copyfile self));
       ("exists", store_exists self);
       ("glob", store_glob self);
       ("isdir", store_isdir self);
       ("listdir", _catch_not_found_error (store_listdir self));
       ("makedirs", store_makedirs self);
       ("mkdir", _catch_not_found_error (store_mkdir self));
       ("remove", _catch_not_found_error (store_remove self));
       ("rename", _catch_not_found_error (store_rename self));
       ("rmtree", _catch_not_found_error (store_rmtree self));
       ("stat", _catch_not_found_error (store_stat self));
       ("walk", _catch_not_found_error (store_walk self))] in
  mkRegistration filesystem_class priority.

(** [__init__]: once the pydantic object is built, register its filesystem. *)
Definition __init__ (self : artifact_store) : registration :=
  _register self None.

(** The methods of the tfx [Filesystem] interface that [_register] passes
    through as they are. *)
Definition passed_through : list string := ["exists"; "glob"; "isdir"; "makedirs"].

End Code.

End ArtifactStore.

(** ** Vocabulary and concrete inputs *)

Module ArtifactStoreExamples.

Import ArtifactStore.

(** [getattr(filesystem_class, name)] for a method of the namespace. *)
Fixpoint lookup_method {W Args V} (name : string)
    (namespace : list (string * method W Args V)) : option (method W Args V) :=
  match namespace with
  | [] => None
  | (n, m) :: rest => if String.eqb n name then Some m else lookup_method name rest
  end.

(** The part of Python's exception hierarchy that matters here:
    [FileNotFoundError] and tfx's [NotFoundError] are both [OSError]s, and
    neither is a subclass of the other. *)
Definition python_issubclass (c d : string) : bool :=
  String.eqb c d
  || (String.eqb d "OSError"
      && (String.eqb c "FileNotFoundError" || String.eqb c "NotFoundError"))
  || String.eqb d "Exception".

(** A store over a set of existing paths; every operation takes one path and
    fails with [FileNotFoundError] when it is missing. *)
Definition needs_path : method (list string) string bool :=
  fun path files =>
    if bool_decide (path ∈ files) then (Returned true, files)
    else (Raised (Exc "FileNotFoundError" [path]), files).

Definition probe : method (list string) string bool :=
  fun path files => (Returned (bool_decide (path ∈ files)), files).

Definition local_store : artifact_store :=
  mkArtifactStore "LocalArtifactStore" {[ EmptyString ]}
    needs_path needs_path probe needs_path probe needs_path
    needs_path needs_path needs_path needs_path needs_path needs_path needs_path.

Definition s3_class : store_class :=
  mkClass "S3ArtifactStore" (Some {[ "s3://" ]}).

Definition s3_values : field_values :=
  {[ "name" := "store"; "path" := "s3://bucket" ]}.

End ArtifactStoreExamples.

(** ** [_catch_not_found_error] *)

Section CatchFacts.

Import ArtifactStore.

Variable issubclass : string -> string -> bool.

(** tfx's [NotFoundError] is not a [FileNotFoundError]. *)
Hypothesis not_found_is_distinct :
  issubclass "NotFoundError" "FileNotFoundError" = false.

Context {W Args V : Type}.

Implicit Types (f : method W Args V).

Lemma catch_cases f args w :
  snd (_catch_not_found_error issubclass f args w) = snd (f args w)
  /\ match fst (f args w) with
     | Returned v =>
         fst (_catch_not_found_error issubclass f args w) = Returned v
     | Raised e =>
         fst (_catch_not_found_error issubclass f args w)
         = if is_file_not_found issubclass e
           then Raised (ExcFrom "NotFoundError" [] e)
           else Raised e
     end.
Proof.
  unfold _catch_not_found_error.
  destruct (f args w) as [[v|e] w']; cbn [fst snd]; [now split|].
  now destruct (is_file_not_found issubclass e).
Qed.

Lemma translated_is_not_file_not_found e :
  is_file_not_found issubclass (ExcFrom "NotFoundError" [] e) = false.
Proof. exact not_found_is_distinct. Qed.

Lemma catch_raises_other_class f args w e :
  fst (_catch_not_found_error issubclass f args w) = Raised e ->
  is_file_not_found issubclass e = false.
Proof.
  destruct (catch_cases f args w) as [_ Hr]. intros He.
  destruct (fst (f args w)) as [v|e0]; rewrite Hr in He; [discriminate|].
  destruct (is_file_not_found issubclass e0) eqn:Hfnf; injection He as <-.
  - apply translated_is_not_file_not_found.
  - exact Hfnf.
Qed.

(** X8: a function wrapped by the decorator never raises a
    [FileNotFoundError]: what it raises is either the function's own
    exception, of another class, or a [NotFoundError] without arguments
    whose cause is the function's [FileNotFoundError].  The wrapper leaves
    the world as the function does. *)
Theorem catch_never_raises_file_not_found f args w e :
  fst (_catch_not_found_error issubclass f args w) = Raised e ->
  is_file_not_found issubclass e = false
  /\ snd (_catch_not_found_error issubclass f args w) = snd (f args w)
  /\ (fst (f args w) = Raised e
      \/ exists e0,
           fst (f args w) = Raised e0
           /\ is_file_not_found issubclass e0 = true
           /\ e = ExcFrom "NotFoundError" [] e0
           /\ exc_cause e = Some e0).
Proof.
  destruct (catch_cases f args w) as [Hw Hr]. intros He.
  destruct (fst (f args w)) as [v|e0] eqn:Hf; rewrite Hr in He; [discriminate|].
  destruct (is_file_not_found issubclass e0) eqn:Hfnf; injection He as <-.
  - split; [apply translated_is_not_file_not_found|].
    split; [exact Hw|]. right. exists e0. auto.
  - auto.
Qed.

(** X9: decorating twice is decorating once. *)
Theorem catch_idempotent f args w :
  _catch_not_found_error issubclass (_catch_not_found_error issubclass f) args w
  = _catch_not_found_error issubclass f args w.
Proof.
  destruct (catch_cases (_catch_not_found_error issubclass f) args w) as [Hw Hr].
  apply injective_projections; [|exact Hw].
  destruct (fst (_catch_not_found_error issubclass f args w)) as [v|e] eqn:Hc; [exact Hr|].
  rewrite Hr.
  now rewrite (catch_raises_other_class f args w e Hc).
Qed.

End CatchFacts.

(** ** [_ensure_artifact_store] *)

Section EnsureFacts.

Import ArtifactStore.

Variable missing_schemes_message : string.
Variable unsupported_path_message : string -> string -> gset string -> string.

Implicit Types (cls : store_class) (values : field_values) (schemes : gset string).

Lemma prefix_inv (i path : string) :
  String.prefix i path = true -> exists rest, path = i +:+ rest.
Proof.
  revert path. induction i as [|x i IH]; intros path Hp.
  - now exists path.
  - destruct path as [|y path]; [discriminate|].
    cbn [String.prefix] in Hp. destruct (ascii_dec x y) as [->|]; [|discriminate].
    destruct (IH _ Hp) as [rest ->]. now exists rest.
Qed.

Lemma prefix_app (i rest : string) : String.prefix i (i +:+ rest) = true.
Proof.
  induction i as [|x i IH]; [now destruct rest|].
  rewrite PosixPathFacts.append_cons. cbn [String.prefix].
  destruct (ascii_dec x x); [exact IH | congruence].
Qed.

(** [any(...)] is true exactly when some scheme of the set starts the path. *)
Lemma starts_with_any_spec schemes (path : string) :
  starts_with_any schemes path = true
  <-> exists i rest, i ∈ schemes /\ path = i +:+ rest.
Proof.
  unfold starts_with_any. rewrite existsb_exists. split.
  - intros (i & Hin & Hp). apply list_elem_of_In, elem_of_elements in Hin.
    destruct (prefix_inv _ _ Hp) as [rest ->]. eauto.
  - intros (i & rest & Hin & ->). exists i. split.
    + now apply list_elem_of_In, elem_of_elements.
    + apply prefix_app.
Qed.

(** X10: the validator returns exactly when the class defines
    [SUPPORTED_SCHEMES] and the [path] value starts with one of the schemes;
    what it returns is then the values it was given, unchanged. *)
Theorem ensure_artifact_store_accepts_iff cls values returned :
  _ensure_artifact_store missing_schemes_message unsupported_path_message
                         cls values = Returned returned
  <-> returned = values
      /\ exists schemes i rest,
           SUPPORTED_SCHEMES cls = Some schemes
           /\ i ∈ schemes
           /\ values !! "path" = Some (i +:+ rest).
Proof.
  unfold _ensure_artifact_store. split.
  - destruct (SUPPORTED_SCHEMES cls) as [schemes|]; [|discriminate].
    destruct (values !! "path") as [path|]; [|discriminate].
    destruct (starts_with_any schemes path) eqn:Hany; cbn [negb]; [|discriminate].
    intros [= <-]. split; [reflexivity|].
    apply starts_with_any_spec in Hany as (i & rest & Hin & ->). eauto 6.
  - intros (-> & schemes & i & rest & -> & Hin & ->).
    assert (Hany : starts_with_any schemes (i +:+ rest) = true)
      by (apply starts_with_any_spec; eauto).
    now rewrite Hany.
Qed.

(** X11: acceptance is kept when schemes are added to the class and when the
    path is extended: every path below an accepted path is accepted. *)
Theorem ensure_artifact_store_accepts_below
    title schemes schemes' values (path suffix : string) :
  values !! "path" = Some path ->
  _ensure_artifact_store missing_schemes_message unsupported_path_message
                         (mkClass title (Some schemes)) values = Returned values ->
  schemes ⊆ schemes' ->
  let values' := <["path" := path +:+ suffix]> values in
  _ensure_artifact_store missing_schemes_message unsupported_path_message
                         (mkClass title (Some schemes')) values' = Returned values'.
Proof.
  intros Hpath Hok Hsub values'. subst values'.
  unfold _ensure_artifact_store, field_values in *. cbn [SUPPORTED_SCHEMES] in *.
  rewrite Hpath in Hok. rewrite lookup_insert_eq.
  destruct (starts_with_any schemes path) eqn:Hany; cbn [negb] in Hok; [|discriminate].
  apply starts_with_any_spec in Hany as (i & rest & Hin & ->).
  assert (Hany : starts_with_any schemes' ((i +:+ rest) +:+ suffix) = true).
  { apply starts_with_any_spec. exists i, (rest +:+ suffix).
    split; [now apply Hsub | apply PosixPathFacts.append_assoc]. }
  now rewrite Hany.
Qed.

(** X12: without schemes nothing is accepted.  A class that does not define
    [SUPPORTED_SCHEMES] is rejected before the values are looked at, and a
    class whose set of schemes is empty rejects every path; both with an
    [ArtifactStoreInterfaceError]. *)
Theorem ensure_artifact_store_rejects_without_schemes title values (path : string) :
  values !! "path" = Some path ->
  (forall any_values,
      _ensure_artifact_store missing_schemes_message unsupported_path_message
                             (mkClass title None) any_values
      = Raised (ArtifactStoreInterfaceError missing_schemes_message))
  /\ _ensure_artifact_store missing_schemes_message unsupported_path_message
                            (mkClass title (Some ∅)) values
     = Raised (ArtifactStoreInterfaceError (unsupported_path_message path title ∅)).
Proof.
  intros Hpath. split; [reflexivity|].
  unfold _ensure_artifact_store. cbn [SUPPORTED_SCHEMES schema_title].
  rewrite Hpath. unfold starts_with_any. now rewrite elements_empty.
Qed.

End EnsureFacts.

(** ** [_register] *)

Section RegisterFacts.

Import ArtifactStore ArtifactStoreExamples.

Variable issubclass : string -> string -> bool.

Hypothesis not_found_is_distinct :
  issubclass "NotFoundError" "FileNotFoundError" = false.

Context {W Args V : Type}.

(** X13: the filesystem class that [__init__] registers for a store has the
    store's class name and schemes and priority 5.  Its [exists], [glob],
    [isdir] and [makedirs] are the store's own methods, untouched; [copy] is
    the store's [copyfile], decorated; and none of its other methods ever
    raises a [FileNotFoundError]. *)
Theorem registered_filesystem_translates_not_found
    (self : @artifact_store W Args V) :
  let registration := __init__ issubclass self in
  let fs := registered_class registration in
  registered_priority registration = 5%Z
  /\ fs_name fs = class_name self
  /\ fs_schemes fs = store_schemes self
  /\ lookup_method "exists" (fs_methods fs) = Some (store_exists self)
  /\ lookup_method "glob" (fs_methods fs) = Some (store_glob self)
  /\ lookup_method "isdir" (fs_methods fs) = Some (store_isdir self)
  /\ lookup_method "makedirs" (fs_methods fs) = Some (store_makedirs self)
  /\ lookup_method "copy" (fs_methods fs)
     = Some (_catch_not_found_error issubclass (store_copyfile self))
  /\ forall name m,
       lookup_method name (fs_methods fs) = Some m ->
       name ∉ passed_through ->
       forall args w e,
         fst (m args w) = Raised e -> is_file_not_found issubclass e = false.
Proof.
  intros registration fs. subst registration fs.
  unfold __init__, _register. cbn [registered_class registered_priority fs_name
    fs_schemes fs_methods default].
  do 8 (split; [reflexivity|]).
  intros name m Hm Hnot args w e.
  cbn [lookup_method] in Hm.
  repeat match type of Hm with
  | (if String.eqb ?n name then _ else _) = _ =>
      destruct (String.eqb_spec n name) as [<-|_]
  end;
  try discriminate Hm;
  injection Hm as <-;
  first
    [ apply (catch_raises_other_class issubclass not_found_is_distinct)
    | exfalso; apply Hnot; unfold passed_through; set_solver ].
Qed.

End RegisterFacts.

(** ** Runs of the artifact store code *)

Section ArtifactStoreRuns.

Import ArtifactStore ArtifactStoreExamples.

Lemma python_not_found_is_distinct :
  python_issubclass "NotFoundError" "FileNotFoundError" = false.
Proof. reflexivity. Qed.

Lemma catch_never_raises_file_not_found_witness :
  let wrapped := _catch_not_found_error python_issubclass needs_path in
  let e := ExcFrom "NotFoundError" [] (Exc "FileNotFoundError" ["/missing"]) in
  is_file_not_found python_issubclass e = false
  /\ snd (wrapped "/missing" ["/there"]) = snd (needs_path "/missing" ["/there"])
  /\ (fst (needs_path "/missing" ["/there"]) = Raised e
      \/ exists e0,
           fst (needs_path "/missing" ["/there"]) = Raised e0
           /\ is_file_not_found python_issubclass e0 = true
           /\ e = ExcFrom "NotFoundError" [] e0
           /\ exc_cause e = Some e0).
Proof.
  refine (catch_never_raises_file_not_found python_issubclass
            python_not_found_is_distinct needs_path "/missing" ["/there"] _ _).
  reflexivity.
Defined.

Lemma catch_idempotent_witness :
  _catch_not_found_error python_issubclass
    (_catch_not_found_error python_issubclass needs_path) "/missing" ["/there"]
  = _catch_not_found_error python_issubclass needs_path "/missing" ["/there"].
Proof.
  exact (catch_idempotent python_issubclass python_not_found_is_distinct
           needs_path "/missing" ["/there"]).
Defined.

Lemma ensure_artifact_store_accepts_below_witness :
  let values' := <["path" := "s3://bucket" +:+ "/zenml/run7"]> s3_values in
  _ensure_artifact_store "missing" (fun _ _ _ => "unsupported")
    (mkClass "S3ArtifactStore" (Some {[ "s3://"; "gs://" ]})) values'
  = Returned values'.
Proof.
  refine (ensure_artifact_store_accepts_below "missing" (fun _ _ _ => "unsupported")
            "S3ArtifactStore" {[ "s3://" ]} {[ "s3://"; "gs://" ]} s3_values
            "s3://bucket" "/zenml/run7" _ _ _).
  - reflexivity.
  - vm_compute. reflexivity.
  - set_solver.
Defined.

Lemma ensure_artifact_store_rejects_without_schemes_witness :
  (forall any_values,
      _ensure_artifact_store "missing" (fun path _ _ => path)
                             (mkClass "S3ArtifactStore" None) any_values
      = Raised (ArtifactStoreInterfaceError "missing"))
  /\ _ensure_artifact_store "missing" (fun path _ _ => path)
                            (mkClass "S3ArtifactStore" (Some ∅)) s3_values
     = Raised (ArtifactStoreInterfaceError "s3://bucket").
Proof.
  refine (ensure_artifact_store_rejects_without_schemes "missing"
            (fun path _ _ => path) "S3ArtifactStore" s3_values "s3://bucket" _).
  reflexivity.
Defined.

Lemma registered_filesystem_translates_not_found_witness :
  let registration := __init__ python_issubclass local_store in
  registered_priority registration = 5%Z
  /\ fs_name (registered_class registration) = "LocalArtifactStore"
  /\ (lookup_method "copy" (fs_methods (registered_class registration))
        ≫= fun copy => Some (fst (copy "/missing" ["/there"])))
     = Some (Raised (ExcFrom "NotFoundError" []
                             (Exc "FileNotFoundError" ["/missing"])))
  /\ (lookup_method "makedirs" (fs_methods (registered_class registration))
        ≫= fun makedirs => Some (fst (makedirs "/missing" ["/there"])))
     = Some (Raised (Exc "FileNotFoundError" ["/missing"])).
Proof.
  pose proof (registered_filesystem_translates_not_found python_issubclass
                python_not_found_is_distinct local_store) as Hreg.
  cbv zeta in Hreg. cbv zeta.
  destruct Hreg as (Hp & Hn & _ & _ & _ & _ & Hmk & Hcp & _).
  rewrite Hmk, Hcp. repeat split; assumption || reflexivity.
Defined.

End ArtifactStoreRuns.
